(** * wireguard-keygen: a shallow embedding of [keygen.ts]

    The module generates and validates WireGuard (Curve25519) keys.  It is
    a thin layer over three things it imports: [crypto.randomBytes], the
    base64 codec of Node's [Buffer], and [x25519.getPublicKey] of
    [@noble/curves].

    Layout of this file:
    - [Js]       the effects of a JavaScript function: exceptions and the
                 host's entropy source, as a small state-and-error monad;
    - [Platform] the interface of the imported functions, as a type class;
    - the four exported functions of [keygen.ts], written over [Platform];
    - [Base64]   Node's base64 codec, [X25519] the curve primitive, and
                 [node], the instance that puts them together;
    - [FastX25519], the same ladder on machine-word integers, used to run
                 the primitive on test vectors;
    - the properties. *)

From Stdlib Require Import ZArith List Bool Strings.Ascii Strings.String Strings.Byte Lia.
From Bignums Require Import BigZ.
Import ListNotations.

Local Open Scope Z_scope.

(* ------------------------------------------------------------------ *)
(** ** Effects *)

Module Js.

(** A thrown JavaScript [Error]; all that the code below distinguishes
    is the message. *)
Inductive exn : Type :=
| Error (message : string).

Inductive res (A : Type) : Type :=
| Ok (a : A)
| Throw (e : exn).
Arguments Ok {A} a.
Arguments Throw {A} e.

(** The only state the module can observe is the host's secure random
    source: the bytes it will deliver next, in order.  A source that has
    run dry stands for one that cannot be read. *)
Definition World : Type := list byte.

Definition M (A : Type) : Type := World -> res A * World.

Definition ret {A} (a : A) : M A := fun w => (Ok a, w).

Definition throw {A} (e : exn) : M A := fun w => (Throw e, w).

Definition bind {A B} (m : M A) (k : A -> M B) : M B :=
  fun w =>
    match m w with
    | (Ok a, w') => k a w'
    | (Throw e, w') => (Throw e, w')
    end.

(** [try { m } catch { h }]: effects performed before the throw stay. *)
Definition try_catch {A} (m : M A) (h : exn -> M A) : M A :=
  fun w =>
    match m w with
    | (Ok a, w') => (Ok a, w')
    | (Throw e, w') => h e w'
    end.

(** A function of the platform that neither reads nor writes the world. *)
Definition pure {A} (r : res A) : M A := fun w => (r, w).

End Js.
Import Js.

Notation "x <- m ;; k" := (bind m (fun x => k))
  (at level 61, m at next level, right associativity).

(* ------------------------------------------------------------------ *)
(** ** The imported functions *)

Class Platform : Type := {
  (** [randomBytes(n)] of Node's [crypto]. *)
  randomBytes : nat -> M (list byte);
  (** [Buffer.from(s, 'base64')]. *)
  Buffer_from_base64 : string -> M (list byte);
  (** [buf.toString('base64')]. *)
  Buffer_toString_base64 : list byte -> M string;
  (** [x25519.getPublicKey(bytes)] of [@noble/curves/ed25519]. *)
  x25519_getPublicKey : list byte -> M (list byte)
}.

(* ------------------------------------------------------------------ *)
(** ** keygen.ts *)

Record WireGuardKeyPair : Type := {
  privateKey : string;
  publicKey : string
}.

Section Keygen.

Context {P : Platform}.

(** 32 random bytes, encoded. *)
Definition generatePrivateKey : M string :=
  privateKeyBytes <- randomBytes 32 ;;
  Buffer_toString_base64 privateKeyBytes.

(** Decode, check the length, multiply the base point, encode.
    ([Buffer.from(publicKeyBytes)] copies the bytes.) *)
Definition derivePublicKey (privateKeyStr : string) : M string :=
  privateKeyBytes <- Buffer_from_base64 privateKeyStr ;;
  if negb (Nat.eqb (List.length privateKeyBytes) 32)
  then throw (Error "Private key must be 32 bytes long")
  else
    publicKeyBytes <- x25519_getPublicKey privateKeyBytes ;;
    Buffer_toString_base64 publicKeyBytes.

(** The length gate, then the decoding inside [try]/[catch]. *)
Definition validatePublicKey (publicKey : string) : M bool :=
  if negb (Nat.eqb (String.length publicKey) 44)
  then ret false
  else
    try_catch
      (decoded <- Buffer_from_base64 publicKey ;;
       ret (Nat.eqb (List.length decoded) 32))
      (fun _ => ret false).

Definition generateWireguardKeyPair : M WireGuardKeyPair :=
  privateKey <- generatePrivateKey ;;
  publicKey <- derivePublicKey privateKey ;;
  ret {| privateKey := privateKey; publicKey := publicKey |}.

End Keygen.

(* ------------------------------------------------------------------ *)
(** ** Bytes *)

Definition byte_val (b : byte) : Z := Z.of_N (Byte.to_N b).

(** Storing an integer into a [Uint8Array] cell keeps its low 8 bits. *)
Definition byte_of (z : Z) : byte :=
  match Byte.of_N (Z.to_N (z mod 256)) with
  | Some b => b
  | None => x00
  end.

(* ------------------------------------------------------------------ *)
(** ** Node's base64 codec

    [buf.toString('base64')] writes standard base64 with padding.
    [Buffer.from(s, 'base64')] is lenient and never throws: it allocates
    a buffer from the length of the string, decodes up to the first [=],
    skips every character that is not in its table (which holds the
    URL-safe alphabet too), drops the bits of an incomplete last byte, and
    returns the bytes it wrote.

    A string is modelled by its code units, each below 256, so the length
    of a string is the JavaScript [length]. *)

Module Base64.

Definition alphabet : string :=
  "ABCDEFGHIJKLMNOPQRSTUVWXYZabcdefghijklmnopqrstuvwxyz0123456789+/".

Definition pad : ascii := "="%char.

(** [table[v]] of the encoder. *)
Definition b64char (v : Z) : ascii :=
  match String.get (Z.to_nat v) alphabet with
  | Some c => c
  | None => pad
  end.

(** The encoder: three bytes give four characters; a tail of one or two
    bytes is padded with [=]. *)
Fixpoint encode (bs : list byte) : list ascii :=
  match bs with
  | [] => []
  | [x] =>
      let a := byte_val x in
      [ b64char (Z.shiftr a 2);
        b64char (Z.shiftl (Z.land a 3) 4);
        pad; pad ]
  | [x; y] =>
      let a := byte_val x in
      let b := byte_val y in
      [ b64char (Z.shiftr a 2);
        b64char (Z.lor (Z.shiftl (Z.land a 3) 4) (Z.shiftr b 4));
        b64char (Z.shiftl (Z.land b 15) 2);
        pad ]
  | x :: y :: z :: rest =>
      let a := byte_val x in
      let b := byte_val y in
      let c := byte_val z in
      b64char (Z.shiftr a 2)
      :: b64char (Z.lor (Z.shiftl (Z.land a 3) 4) (Z.shiftr b 4))
      :: b64char (Z.lor (Z.shiftl (Z.land b 15) 2) (Z.shiftr c 6))
      :: b64char (Z.land c 63)
      :: encode rest
  end.

(** The decoder's table: the standard alphabet, and [-] and [_] of the
    URL-safe one; every other code unit has no value. *)
Definition unbase64 (c : ascii) : option Z :=
  let n := Z.of_N (N_of_ascii c) in
  if (65 <=? n) && (n <=? 90) then Some (n - 65)
  else if (97 <=? n) && (n <=? 122) then Some (n - 71)
  else if (48 <=? n) && (n <=? 57) then Some (n + 4)
  else if (n =? 43) || (n =? 45) then Some 62
  else if (n =? 47) || (n =? 95) then Some 63
  else None.

(** The decoder reads on to the first [=]; a character without a value
    is skipped. *)
Fixpoint sextets (s : list ascii) : list Z :=
  match s with
  | [] => []
  | c :: s' =>
      if Ascii.eqb c pad then []
      else
        match unbase64 c with
        | Some v => v :: sextets s'
        | None => sextets s'
        end
  end.

(** Four values give three bytes; of a shorter tail, two values give one
    byte and three give two; a single value gives none. *)
Fixpoint pack (vs : list Z) : list byte :=
  match vs with
  | v0 :: v1 :: v2 :: v3 :: rest =>
      byte_of (Z.lor (Z.shiftl (Z.land v0 63) 2) (Z.shiftr (Z.land v1 48) 4))
      :: byte_of (Z.lor (Z.shiftl (Z.land v1 15) 4) (Z.shiftr (Z.land v2 60) 2))
      :: byte_of (Z.lor (Z.shiftl (Z.land v2 3) 6) (Z.land v3 63))
      :: pack rest
  | [v0; v1; v2] =>
      [ byte_of (Z.lor (Z.shiftl (Z.land v0 63) 2) (Z.shiftr (Z.land v1 48) 4));
        byte_of (Z.lor (Z.shiftl (Z.land v1 15) 4) (Z.shiftr (Z.land v2 60) 2)) ]
  | [v0; v1] =>
      [ byte_of (Z.lor (Z.shiftl (Z.land v0 63) 2) (Z.shiftr (Z.land v1 48) 4)) ]
  | _ => []
  end.

Definition is_pad_at (s : list ascii) (i : nat) : bool :=
  match nth_error s i with
  | Some c => Ascii.eqb c pad
  | None => false
  end.

(** [base64ByteLength(str, str.length)]: the size of the buffer that is
    allocated before decoding. *)
Definition base64ByteLength (s : list ascii) : nat :=
  let bytes := List.length s in
  let bytes := if is_pad_at s (bytes - 1) then (bytes - 1)%nat else bytes in
  let bytes :=
    if Nat.ltb 1 bytes && is_pad_at s (bytes - 1)
    then (bytes - 1)%nat else bytes in
  Nat.div (bytes * 3) 4.

(** [Buffer.from(s, 'base64')]: never throws; the result is cut to the
    allocated size. *)
Definition decode (s : list ascii) : list byte :=
  firstn (base64ByteLength s) (pack (sextets s)).

Definition toString (bs : list byte) : string :=
  string_of_list_ascii (encode bs).

Definition from (s : string) : list byte :=
  decode (list_ascii_of_string s).

End Base64.

(* ------------------------------------------------------------------ *)
(** ** The curve primitive

    [x25519] of [@noble/curves] is the function X25519 of RFC 7748 on
    byte arrays, on JavaScript's unbounded integers: the scalar is
    clamped, the Montgomery ladder runs over its 255 bits, and a result
    of zero is refused.  [getPublicKey] multiplies the base point
    [u = 9]. *)

Module X25519.

Definition P : Z := 2 ^ 255 - 19.

Definition a24 : Z := 121665.

Definition Gu : Z := 9.

Definition modP (n : Z) : Z := n mod P.

Fixpoint bytesToNumberLE (bs : list byte) : Z :=
  match bs with
  | [] => 0
  | b :: rest => byte_val b + 256 * bytesToNumberLE rest
  end.

Fixpoint numberToBytesLE (n : Z) (len : nat) : list byte :=
  match len with
  | O => []
  | S len' => byte_of n :: numberToBytesLE (Z.shiftr n 8) len'
  end.

Definition set_nth (i : nat) (f : byte -> byte) (bs : list byte) : list byte :=
  firstn i bs ++
  match nth_error bs i with
  | Some b => [f b]
  | None => []
  end ++ skipn (S i) bs.

(** [bytes[0] &= 248; bytes[31] &= 127; bytes[31] |= 64]. *)
Definition adjustScalarBytes (bytes : list byte) : list byte :=
  let bytes := set_nth 0 (fun b => byte_of (Z.land (byte_val b) 248)) bytes in
  let bytes := set_nth 31 (fun b => byte_of (Z.land (byte_val b) 127)) bytes in
  set_nth 31 (fun b => byte_of (Z.lor (byte_val b) 64)) bytes.

Definition encodeU (u : Z) : list byte := numberToBytesLE (modP u) 32.

Definition decodeU (u : list byte) : Z :=
  modP (bytesToNumberLE
          (set_nth 31 (fun b => byte_of (Z.land (byte_val b) 127)) u)).

Definition decodeScalar (scalar : list byte) : Z :=
  bytesToNumberLE (adjustScalarBytes scalar).

Definition cswap (swap x_2 x_3 : Z) : Z * Z :=
  let dummy := modP (swap * (x_2 - x_3)) in
  (modP (x_2 - dummy), modP (x_3 + dummy)).

(** [z^e mod P], by squaring. *)
Fixpoint pow_mod (z : Z) (e : positive) : Z :=
  match e with
  | xH => modP z
  | xO e' => let h := pow_mod z e' in modP (h * h)
  | xI e' => let h := pow_mod z e' in modP (modP (h * h) * z)
  end.

Definition powPminus2 (z : Z) : Z := pow_mod z (Z.to_pos (P - 2)).

Record ladder_state : Type := {
  x_2 : Z; z_2 : Z; x_3 : Z; z_3 : Z; swap : Z
}.

(** One turn of the loop, for bit [t] of the scalar [k]. *)
Definition ladder_step (x_1 k : Z) (t : Z) (s : ladder_state) : ladder_state :=
  let k_t := Z.land (Z.shiftr k t) 1 in
  let swap := Z.lxor (swap s) k_t in
  let '(x_2, x_3) := cswap swap (x_2 s) (x_3 s) in
  let '(z_2, z_3) := cswap swap (z_2 s) (z_3 s) in
  let swap := k_t in
  let A := x_2 + z_2 in
  let AA := modP (A * A) in
  let B := x_2 - z_2 in
  let BB := modP (B * B) in
  let E := AA - BB in
  let C := x_3 + z_3 in
  let D := x_3 - z_3 in
  let DA := modP (D * A) in
  let CB := modP (C * B) in
  let dacb := DA + CB in
  let da_cb := DA - CB in
  {| x_3 := modP (dacb * dacb);
     z_3 := modP (x_1 * modP (da_cb * da_cb));
     x_2 := modP (AA * BB);
     z_2 := modP (E * (AA + modP (a24 * E)));
     swap := swap |}.

(** [for (t = n - 1; t >= 0; t--)]. *)
Fixpoint ladder_loop (x_1 k : Z) (n : nat) (s : ladder_state) : ladder_state :=
  match n with
  | O => s
  | S t => ladder_loop x_1 k t (ladder_step x_1 k (Z.of_nat t) s)
  end.

Definition montgomeryLadder (u scalar : Z) : Z :=
  let s := ladder_loop u scalar 255
             {| x_2 := 1; z_2 := 0; x_3 := u; z_3 := 1; swap := 0 |} in
  let '(x_2, _) := cswap (swap s) (x_2 s) (x_3 s) in
  let '(z_2, _) := cswap (swap s) (z_2 s) (z_3 s) in
  modP (x_2 * powPminus2 z_2).

Definition scalarMult (scalar u : list byte) : res (list byte) :=
  if negb (Nat.eqb (List.length scalar) 32)
  then Throw (Error "scalar of length 32 expected")
  else if negb (Nat.eqb (List.length u) 32)
  then Throw (Error "u coordinate of length 32 expected")
  else
    let pu := montgomeryLadder (decodeU u) (decodeScalar scalar) in
    if pu =? 0
    then Throw (Error "invalid private or public key received")
    else Ok (encodeU pu).

Definition getPublicKey (secretKey : list byte) : res (list byte) :=
  scalarMult secretKey (encodeU Gu).

End X25519.

(** The ladder again, on Bignums' integers; [montgomeryLadder_fast] below
    shows that it computes the same number. *)

Module FastX25519.

Definition P : bigZ := BigZ.of_Z X25519.P.

Definition a24 : bigZ := BigZ.of_Z X25519.a24.

Definition modP (n : bigZ) : bigZ := BigZ.modulo n P.

Definition cswap (swap : Z) (x_2 x_3 : bigZ) : bigZ * bigZ :=
  let dummy := modP (BigZ.mul (BigZ.of_Z swap) (BigZ.sub x_2 x_3)) in
  (modP (BigZ.sub x_2 dummy), modP (BigZ.add x_3 dummy)).

Fixpoint pow_mod (z : bigZ) (e : positive) : bigZ :=
  match e with
  | xH => modP z
  | xO e' => let h := pow_mod z e' in modP (BigZ.mul h h)
  | xI e' => let h := pow_mod z e' in modP (BigZ.mul (modP (BigZ.mul h h)) z)
  end.

Definition powPminus2 (z : bigZ) : bigZ := pow_mod z (Z.to_pos (X25519.P - 2)).

Record ladder_state : Type := {
  x_2 : bigZ; z_2 : bigZ; x_3 : bigZ; z_3 : bigZ; swap : Z
}.

Definition ladder_step (x_1 : bigZ) (k : Z) (t : Z) (s : ladder_state)
  : ladder_state :=
  let k_t := Z.land (Z.shiftr k t) 1 in
  let swap := Z.lxor (swap s) k_t in
  let '(x_2, x_3) := cswap swap (x_2 s) (x_3 s) in
  let '(z_2, z_3) := cswap swap (z_2 s) (z_3 s) in
  let swap := k_t in
  let A := BigZ.add x_2 z_2 in
  let AA := modP (BigZ.mul A A) in
  let B := BigZ.sub x_2 z_2 in
  let BB := modP (BigZ.mul B B) in
  let E := BigZ.sub AA BB in
  let C := BigZ.add x_3 z_3 in
  let D := BigZ.sub x_3 z_3 in
  let DA := modP (BigZ.mul D A) in
  let CB := modP (BigZ.mul C B) in
  let dacb := BigZ.add DA CB in
  let da_cb := BigZ.sub DA CB in
  {| x_3 := modP (BigZ.mul dacb dacb);
     z_3 := modP (BigZ.mul x_1 (modP (BigZ.mul da_cb da_cb)));
     x_2 := modP (BigZ.mul AA BB);
     z_2 := modP (BigZ.mul E (BigZ.add AA (modP (BigZ.mul a24 E))));
     swap := swap |}.

Fixpoint ladder_loop (x_1 : bigZ) (k : Z) (n : nat) (s : ladder_state)
  : ladder_state :=
  match n with
  | O => s
  | S t => ladder_loop x_1 k t (ladder_step x_1 k (Z.of_nat t) s)
  end.

Definition montgomeryLadder (u : bigZ) (scalar : Z) : Z :=
  let s := ladder_loop u scalar 255
             {| x_2 := BigZ.of_Z 1; z_2 := BigZ.of_Z 0;
                x_3 := u; z_3 := BigZ.of_Z 1; swap := 0 |} in
  let '(x_2, _) := cswap (swap s) (x_2 s) (x_3 s) in
  let '(z_2, _) := cswap (swap s) (z_2 s) (z_3 s) in
  BigZ.to_Z (modP (BigZ.mul x_2 (powPminus2 z_2))).

Definition scalarMult (scalar u : list byte) : res (list byte) :=
  if negb (Nat.eqb (List.length scalar) 32)
  then Throw (Error "scalar of length 32 expected")
  else if negb (Nat.eqb (List.length u) 32)
  then Throw (Error "u coordinate of length 32 expected")
  else
    let pu := montgomeryLadder (BigZ.of_Z (X25519.decodeU u))
                (X25519.decodeScalar scalar) in
    if pu =? 0
    then Throw (Error "invalid private or public key received")
    else Ok (X25519.encodeU pu).

Definition getPublicKey (secretKey : list byte) : res (list byte) :=
  scalarMult secretKey (X25519.encodeU X25519.Gu).

End FastX25519.

(* ------------------------------------------------------------------ *)
(** ** Node *)

(** [crypto.randomBytes(n)]: the next [n] bytes of the entropy source. *)
Definition node_randomBytes (n : nat) : M (list byte) :=
  fun w =>
    if Nat.ltb (List.length w) n
    then (Throw (Error "entropy source unavailable"), w)
    else (Ok (firstn n w), skipn n w).

#[export] Instance node : Platform := {
  randomBytes := node_randomBytes;
  Buffer_from_base64 := fun s => pure (Ok (Base64.from s));
  Buffer_toString_base64 := fun bs => pure (Ok (Base64.toString bs));
  x25519_getPublicKey := fun k => pure (X25519.getPublicKey k)
}.

(* ------------------------------------------------------------------ *)
(** ** Test vectors and a platform that fails *)

(** The example key pair of the README. *)
Definition readme_private : string :=
  "nPse/4zbQGxOqAM14icWRru4I6g9s9xdhg9sCY2l3ck=".

Definition readme_public : string :=
  "Y3AdHf4MAZi3xgCFxiDfyPBNbBQKuTqTCoDI/XHrnQg=".

Definition readme_private_bytes : list byte :=
  Eval vm_compute in Base64.from readme_private.

Definition readme_public_bytes : list byte :=
  Eval vm_compute in Base64.from readme_public.

(** Bytes from a list of hexadecimal digits, two for each byte. *)
Definition bytes_of_hex_digits (ds : list Z) : list byte :=
  (fix go (ds : list Z) : list byte :=
     match ds with
     | h :: l :: rest => byte_of (16 * h + l) :: go rest
     | _ => []
     end) ds.

(** The one error that [keygen.ts] throws itself. *)
Definition key_length_error : exn := Error "Private key must be 32 bytes long".

(** The encoding of a 32-byte value without its padding. *)
Definition unpadded (bs : list byte) : string :=
  string_of_list_ascii (firstn 43 (Base64.encode bs)).

(** A platform whose decoder throws on every input. *)
Definition throwing_decoder : Platform := {|
  randomBytes := node_randomBytes;
  Buffer_from_base64 := fun _ => throw (Error "Invalid base64");
  Buffer_toString_base64 := fun bs => pure (Ok (Base64.toString bs));
  x25519_getPublicKey := fun k => pure (X25519.getPublicKey k)
|}.

(* ------------------------------------------------------------------ *)
(** ** Valid base64, as the specification words it

    "Standard base64 alphabet ([A-Z], [a-z], [0-9], [+], [/]) with [=]
    padding": characters of the alphabet, then at most two [=], the whole
    a multiple of four characters long. *)

(** The alphabet of the spec: [A-Z], [a-z], [0-9], [+] and [/]. *)
Definition is_std_char (c : ascii) : bool :=
  let n := Z.of_N (N_of_ascii c) in
  ((65 <=? n) && (n <=? 90)) || ((97 <=? n) && (n <=? 122))
  || ((48 <=? n) && (n <=? 57)) || (n =? 43) || (n =? 47).

Fixpoint body_pad (l : list ascii) : bool :=
  match l with
  | [] => true
  | c :: l' =>
      if is_std_char c then body_pad l'
      else Ascii.eqb c Base64.pad
           && match l' with
              | [] => true
              | [c'] => Ascii.eqb c' Base64.pad
              | _ => false
              end
  end.

Definition is_base64 (s : string) : bool :=
  let l := list_ascii_of_string s in
  Nat.eqb (List.length l mod 4) 0 && body_pad l.

Definition pad_count (l : list ascii) : nat :=
  List.length (filter (fun c => Ascii.eqb c Base64.pad) l).

(** The number of bytes that a valid base64 string stands for. *)
Definition base64_decoded_length (s : string) : nat :=
  let l := list_ascii_of_string s in
  (3 * (List.length l / 4) - pad_count l)%nat.

(* ------------------------------------------------------------------ *)
(** ** Definitions that the proofs use *)

(** Every byte, for proofs by enumeration. *)
Definition all_bytes : list byte :=
  map (fun n => byte_of (Z.of_nat n)) (seq 0 256).

(** A value whose character is of the alphabet and decodes to it. *)
Definition good_value (v : Z) : bool :=
  negb (Ascii.eqb (Base64.b64char v) Base64.pad)
  && match Base64.unbase64 (Base64.b64char v) with
     | Some v' => v' =? v
     | None => false
     end
  && is_std_char (Base64.b64char v).

(** The four values that the encoder takes from a group of three bytes. *)
Definition s0 (x : byte) : Z := Z.shiftr (byte_val x) 2.
Definition s1 (x y : byte) : Z :=
  Z.lor (Z.shiftl (Z.land (byte_val x) 3) 4) (Z.shiftr (byte_val y) 4).
Definition s2 (y z : byte) : Z :=
  Z.lor (Z.shiftl (Z.land (byte_val y) 15) 2) (Z.shiftr (byte_val z) 6).
Definition s3 (z : byte) : Z := Z.land (byte_val z) 63.

Definition in_sextet (v : Z) : bool := (0 <=? v) && (v <? 64).

(** The number of [=] that end the encoding of [n] bytes. *)
Definition npad (n : nat) : nat :=
  match (n mod 3)%nat with
  | 0%nat => 0
  | 1%nat => 2
  | _ => 1
  end.

(** The state of the fast ladder, read as a state of the ladder on [Z]. *)
Definition to_state (s : FastX25519.ladder_state) : X25519.ladder_state :=
  {| X25519.x_2 := BigZ.to_Z (FastX25519.x_2 s);
     X25519.z_2 := BigZ.to_Z (FastX25519.z_2 s);
     X25519.x_3 := BigZ.to_Z (FastX25519.x_3 s);
     X25519.z_3 := BigZ.to_Z (FastX25519.z_3 s);
     X25519.swap := FastX25519.swap s |}.

(* ------------------------------------------------------------------ *)
(** ** Strings that the decoder reads like another *)

(** A character that the decoder passes over: it has no value in the
    table and is not [=].  White space is of this kind. *)
Definition skipped_char (c : ascii) : bool :=
  negb (Ascii.eqb c Base64.pad)
  && match Base64.unbase64 c with
     | Some _ => false
     | None => true
     end.

(** The URL-safe spelling of a base64 string: [-] for [+], [_] for [/]. *)
Definition urlsafe_char (c : ascii) : ascii :=
  if Ascii.eqb c "+"%char then "-"%char
  else if Ascii.eqb c "/"%char then "_"%char
  else c.

Definition urlsafe (s : string) : string :=
  string_of_list_ascii (map urlsafe_char (list_ascii_of_string s)).

(** Two calls in a row, as the test suite makes them. *)
Definition two_key_pairs : M (WireGuardKeyPair * WireGuardKeyPair) :=
  keyPair <- generateWireguardKeyPair ;;
  keyPair2 <- generateWireguardKeyPair ;;
  ret (keyPair, keyPair2).

(* ================================================================== *)
(** * Properties *)

(* ------------------------------------------------------------------ *)
(** ** The monad *)

(** A [try] whose handler returns never throws. *)
Lemma try_catch_total {A} (m : M A) (d : A) (w : World) :
  exists a w', try_catch m (fun _ => ret d) w = (Ok a, w').
Proof.
  unfold try_catch, ret.
  destruct (m w) as [[a | e] w']; eauto.
Qed.

(* ------------------------------------------------------------------ *)
(** ** Bytes, by enumeration *)

Lemma byte_val_range (b : byte) : 0 <= byte_val b < 256.
Proof.
  unfold byte_val.
  pose proof (Byte.to_N_bounded b) as H. lia.
Qed.

Lemma byte_of_val (b : byte) : byte_of (byte_val b) = b.
Proof.
  unfold byte_of, byte_val.
  pose proof (byte_val_range b) as H. unfold byte_val in H.
  rewrite Z.mod_small by exact H.
  rewrite N2Z.id, Byte.of_to_N. reflexivity.
Qed.

Lemma in_all_bytes (b : byte) : In b all_bytes.
Proof.
  unfold all_bytes.
  rewrite <- (byte_of_val b).
  pose proof (byte_val_range b) as H.
  rewrite <- (Z2Nat.id (byte_val b)) by lia.
  apply in_map with (f := fun n => byte_of (Z.of_nat n)).
  apply in_seq. lia.
Qed.

Lemma forall_byte (f : byte -> bool) :
  forallb f all_bytes = true -> forall b, f b = true.
Proof.
  intros H b. rewrite forallb_forall in H. apply H, in_all_bytes.
Qed.

Lemma forall_byte2 (f : byte -> byte -> bool) :
  forallb (fun x => forallb (f x) all_bytes) all_bytes = true ->
  forall x y, f x y = true.
Proof.
  intros H x y.
  apply forall_byte with (f := f x).
  apply forall_byte with (f := fun x => forallb (f x) all_bytes).
  exact H.
Qed.

Ltac by_bytes1 f := apply (forall_byte f); vm_compute; reflexivity.
Ltac by_bytes2 f := apply (forall_byte2 f); vm_compute; reflexivity.

(* ------------------------------------------------------------------ *)
(** ** The codec: characters *)

Lemma good_value_all (v : Z) : 0 <= v < 64 -> good_value v = true.
Proof.
  intros Hv.
  assert (H : forallb (fun n => good_value (Z.of_nat n)) (seq 0 64) = true)
    by (vm_compute; reflexivity).
  rewrite forallb_forall in H.
  rewrite <- (Z2Nat.id v) by lia.
  apply H, in_seq. lia.
Qed.

Lemma b64char_not_pad (v : Z) :
  0 <= v < 64 -> Ascii.eqb (Base64.b64char v) Base64.pad = false.
Proof.
  intros Hv. pose proof (good_value_all v Hv) as H.
  unfold good_value in H.
  apply andb_prop in H as [H _]. apply andb_prop in H as [H _].
  now apply negb_true_iff in H.
Qed.

Lemma unbase64_b64char (v : Z) :
  0 <= v < 64 -> Base64.unbase64 (Base64.b64char v) = Some v.
Proof.
  intros Hv. pose proof (good_value_all v Hv) as H.
  unfold good_value in H.
  apply andb_prop in H as [H _]. apply andb_prop in H as [_ H].
  destruct (Base64.unbase64 (Base64.b64char v)) as [v' |]; [| discriminate].
  apply Z.eqb_eq in H. now subst.
Qed.

Lemma b64char_std (v : Z) :
  0 <= v < 64 -> is_std_char (Base64.b64char v) = true.
Proof.
  intros Hv. pose proof (good_value_all v Hv) as H.
  unfold good_value in H. now apply andb_prop in H as [_ H].
Qed.

(** A character of the standard alphabet is not the padding character and
    has a value. *)
Lemma std_char_value (c : ascii) :
  is_std_char c = true ->
  Ascii.eqb c Base64.pad = false /\ exists v, Base64.unbase64 c = Some v.
Proof.
  assert (H : forallb (fun n =>
             let c := ascii_of_nat n in
             negb (is_std_char c)
             || (negb (Ascii.eqb c Base64.pad)
                 && match Base64.unbase64 c with Some _ => true | None => false end))
            (seq 0 256) = true) by (vm_compute; reflexivity).
  rewrite forallb_forall in H.
  intros Hc.
  specialize (H (nat_of_ascii c)).
  rewrite ascii_nat_embedding in H. cbv zeta in H.
  rewrite Hc in H. simpl in H.
  assert (Hin : In (nat_of_ascii c) (seq 0 256))
    by (apply in_seq; pose proof (nat_ascii_bounded c); lia).
  apply H in Hin. apply andb_prop in Hin as [H1 H2].
  apply negb_true_iff in H1. split; [exact H1 |].
  destruct (Base64.unbase64 c) as [v |]; [eauto | discriminate].
Qed.

Lemma sextets_b64char (v : Z) (s : list ascii) :
  0 <= v < 64 ->
  Base64.sextets (Base64.b64char v :: s) = v :: Base64.sextets s.
Proof.
  intros Hv. simpl.
  rewrite (b64char_not_pad v Hv), (unbase64_b64char v Hv). reflexivity.
Qed.

(* ------------------------------------------------------------------ *)
(** ** The codec: one group of three bytes *)

Lemma in_sextet_range (v : Z) : in_sextet v = true -> 0 <= v < 64.
Proof. unfold in_sextet. intros H. apply andb_prop in H as [?%Z.leb_le ?%Z.ltb_lt]. lia. Qed.

Lemma s0_range x : 0 <= s0 x < 64.
Proof. apply in_sextet_range. revert x. by_bytes1 (fun x => in_sextet (s0 x)). Qed.

Lemma s1_range x y : 0 <= s1 x y < 64.
Proof. apply in_sextet_range. revert x y. by_bytes2 (fun x y => in_sextet (s1 x y)). Qed.

Lemma s2_range y z : 0 <= s2 y z < 64.
Proof. apply in_sextet_range. revert y z. by_bytes2 (fun y z => in_sextet (s2 y z)). Qed.

Lemma s3_range z : 0 <= s3 z < 64.
Proof. apply in_sextet_range. revert z. by_bytes1 (fun z => in_sextet (s3 z)). Qed.

(** The three bytes that the decoder builds from the values of a group. *)
Lemma unpack0 x y :
  Z.lor (Z.shiftl (Z.land (s0 x) 63) 2) (Z.shiftr (Z.land (s1 x y) 48) 4)
  = byte_val x.
Proof.
  apply Z.eqb_eq. revert x y.
  by_bytes2 (fun x y =>
    Z.lor (Z.shiftl (Z.land (s0 x) 63) 2) (Z.shiftr (Z.land (s1 x y) 48) 4)
    =? byte_val x).
Qed.

Lemma unpack1_hi x y : Z.land (s1 x y) 15 = Z.shiftr (byte_val y) 4.
Proof.
  apply Z.eqb_eq. revert x y.
  by_bytes2 (fun x y => Z.land (s1 x y) 15 =? Z.shiftr (byte_val y) 4).
Qed.

Lemma unpack1_lo y z :
  Z.shiftr (Z.land (s2 y z) 60) 2 = Z.land (byte_val y) 15.
Proof.
  apply Z.eqb_eq. revert y z.
  by_bytes2 (fun y z => Z.shiftr (Z.land (s2 y z) 60) 2 =? Z.land (byte_val y) 15).
Qed.

Lemma unpack1_join y :
  Z.lor (Z.shiftl (Z.shiftr (byte_val y) 4) 4) (Z.land (byte_val y) 15)
  = byte_val y.
Proof.
  apply Z.eqb_eq. revert y.
  by_bytes1 (fun y =>
    Z.lor (Z.shiftl (Z.shiftr (byte_val y) 4) 4) (Z.land (byte_val y) 15)
    =? byte_val y).
Qed.

Lemma unpack1 x y z :
  Z.lor (Z.shiftl (Z.land (s1 x y) 15) 4) (Z.shiftr (Z.land (s2 y z) 60) 2)
  = byte_val y.
Proof. rewrite unpack1_hi, unpack1_lo. apply unpack1_join. Qed.

Lemma unpack2 y z :
  Z.lor (Z.shiftl (Z.land (s2 y z) 3) 6) (Z.land (s3 z) 63) = byte_val z.
Proof.
  apply Z.eqb_eq. revert y z.
  by_bytes2 (fun y z =>
    Z.lor (Z.shiftl (Z.land (s2 y z) 3) 6) (Z.land (s3 z) 63) =? byte_val z).
Qed.

Lemma encode_group x y z rest :
  Base64.encode (x :: y :: z :: rest)
  = Base64.b64char (s0 x) :: Base64.b64char (s1 x y)
    :: Base64.b64char (s2 y z) :: Base64.b64char (s3 z)
    :: Base64.encode rest.
Proof. reflexivity. Qed.

Lemma encode_one x :
  Base64.encode [x]
  = [Base64.b64char (s0 x); Base64.b64char (s1 x x00); Base64.pad; Base64.pad].
Proof.
  unfold s1. change (Z.shiftr (byte_val x00) 4) with 0.
  rewrite Z.lor_0_r. reflexivity.
Qed.

Lemma encode_two x y :
  Base64.encode [x; y]
  = [Base64.b64char (s0 x); Base64.b64char (s1 x y);
     Base64.b64char (s2 y x00); Base64.pad].
Proof.
  unfold s2. change (Z.shiftr (byte_val x00) 6) with 0.
  rewrite Z.lor_0_r. reflexivity.
Qed.

(* ------------------------------------------------------------------ *)
(** ** The codec: whole buffers *)

Section ListInduction.

Context {A : Type} (Q : list A -> Prop).

Lemma list_ind3 :
  Q [] ->
  (forall x, Q [x]) ->
  (forall x y, Q [x; y]) ->
  (forall x y z rest, Q rest -> Q (x :: y :: z :: rest)) ->
  forall l, Q l.
Proof.
  intros H0 H1 H2 H3.
  refine (fix go l := match l with
                      | [] => H0
                      | [x] => H1 x
                      | [x; y] => H2 x y
                      | x :: y :: z :: rest => H3 x y z rest (go rest)
                      end).
Qed.

Lemma list_ind4 :
  Q [] ->
  (forall a, Q [a]) ->
  (forall a b, Q [a; b]) ->
  (forall a b c, Q [a; b; c]) ->
  (forall a b c d rest, Q rest -> Q (a :: b :: c :: d :: rest)) ->
  forall l, Q l.
Proof.
  intros H0 H1 H2 H3 H4.
  refine (fix go l := match l with
                      | [] => H0
                      | [a] => H1 a
                      | [a; b] => H2 a b
                      | [a; b; c] => H3 a b c
                      | a :: b :: c :: d :: rest => H4 a b c d rest (go rest)
                      end).
Qed.

End ListInduction.

(** Decoding what the encoder wrote gives the bytes back (before the cut to
    the allocated size). *)
Lemma pack_sextets_encode (bs : list byte) :
  Base64.pack (Base64.sextets (Base64.encode bs)) = bs.
Proof.
  induction bs as [| x | x y | x y z rest IH] using list_ind3.
  - reflexivity.
  - rewrite encode_one.
    rewrite !sextets_b64char by (apply s0_range || apply s1_range).
    cbn [Base64.sextets Base64.pack]. change (Ascii.eqb Base64.pad Base64.pad) with true.
    cbv iota. rewrite unpack0, byte_of_val. reflexivity.
  - rewrite encode_two.
    rewrite !sextets_b64char by (apply s0_range || apply s1_range || apply s2_range).
    cbn [Base64.sextets Base64.pack]. change (Ascii.eqb Base64.pad Base64.pad) with true.
    cbv iota. rewrite unpack0, unpack1, !byte_of_val. reflexivity.
  - rewrite encode_group.
    rewrite !sextets_b64char
      by (apply s0_range || apply s1_range || apply s2_range || apply s3_range).
    cbn [Base64.pack].
    rewrite unpack0, unpack1, unpack2, !byte_of_val, IH. reflexivity.
Qed.

Lemma length_encode (bs : list byte) :
  List.length (Base64.encode bs) = (4 * ((List.length bs + 2) / 3))%nat.
Proof.
  induction bs as [| x | x y | x y z rest IH] using list_ind3;
    try reflexivity.
  rewrite encode_group. cbn [List.length]. rewrite IH.
  replace (S (S (S (List.length rest))) + 2)%nat
    with (1 * 3 + (List.length rest + 2))%nat by lia.
  rewrite Nat.div_add_l by lia. lia.
Qed.

Lemma length_pack (vs : list Z) :
  List.length (Base64.pack vs) = (List.length vs * 3 / 4)%nat.
Proof.
  induction vs as [| a | a b | a b c | a b c d rest IH] using list_ind4;
    try reflexivity.
  cbn [Base64.pack List.length]. rewrite IH.
  replace (S (S (S (S (List.length rest)))) * 3)%nat
    with (3 * 4 + List.length rest * 3)%nat by lia.
  rewrite Nat.div_add_l by lia. lia.
Qed.

Lemma length_sextets (s : list ascii) :
  (List.length (Base64.sextets s) <= List.length s)%nat.
Proof.
  induction s as [| c s IH]; simpl; [lia |].
  destruct (Ascii.eqb c Base64.pad); simpl; [lia |].
  destruct (Base64.unbase64 c); simpl; lia.
Qed.

(** Decoding stops at a padding character, so one at index [i] leaves at
    most [i] values. *)
Lemma length_sextets_pad (s : list ascii) (i : nat) :
  Base64.is_pad_at s i = true ->
  (List.length (Base64.sextets s) <= i)%nat.
Proof.
  revert i. induction s as [| c s IH]; intros i H.
  - simpl. lia.
  - destruct i as [| j].
    + unfold Base64.is_pad_at in H. simpl in H. simpl. rewrite H. simpl. lia.
    + assert (Hj : Base64.is_pad_at s j = true) by exact H.
      apply IH in Hj. simpl.
      destruct (Ascii.eqb c Base64.pad); simpl; [lia |].
      destruct (Base64.unbase64 c); simpl; lia.
Qed.

(** The allocated size is never too small: the cut removes nothing. *)
Lemma pack_fits (s : list ascii) :
  (List.length (Base64.pack (Base64.sextets s)) <= Base64.base64ByteLength s)%nat.
Proof.
  rewrite length_pack. unfold Base64.base64ByteLength.
  apply Nat.Div0.div_le_mono, Nat.mul_le_mono_r.
  pose proof (length_sextets s) as Hlen.
  destruct (Base64.is_pad_at s (List.length s - 1)) eqn:E1.
  - apply length_sextets_pad in E1.
    destruct (Nat.ltb 1 (List.length s - 1)
              && Base64.is_pad_at s (List.length s - 1 - 1)) eqn:E2.
    + apply andb_prop in E2 as [_ E2]. apply length_sextets_pad in E2. exact E2.
    + exact E1.
  - rewrite E1.
    destruct (Nat.ltb 1 (List.length s) && false) eqn:E2.
    + rewrite andb_false_r in E2. discriminate.
    + exact Hlen.
Qed.

Lemma decode_pack (s : list ascii) :
  Base64.decode s = Base64.pack (Base64.sextets s).
Proof. unfold Base64.decode. apply firstn_all2, pack_fits. Qed.

Lemma length_decode (s : list ascii) :
  List.length (Base64.decode s)
  = (List.length (Base64.sextets s) * 3 / 4)%nat.
Proof. rewrite decode_pack. apply length_pack. Qed.

(** Round trip of the codec, for buffers of every length. *)
Lemma decode_encode (bs : list byte) :
  Base64.decode (Base64.encode bs) = bs.
Proof. rewrite decode_pack. apply pack_sextets_encode. Qed.

Lemma from_toString (bs : list byte) :
  Base64.from (Base64.toString bs) = bs.
Proof.
  unfold Base64.from, Base64.toString.
  rewrite list_ascii_of_string_of_list_ascii. apply decode_encode.
Qed.

Lemma length_string_of_list (l : list ascii) :
  String.length (string_of_list_ascii l) = List.length l.
Proof. induction l as [| c l IH]; simpl; congruence. Qed.

Lemma length_list_of_string (s : string) :
  List.length (list_ascii_of_string s) = String.length s.
Proof. induction s as [| c s IH]; simpl; congruence. Qed.

Lemma length_toString (bs : list byte) :
  String.length (Base64.toString bs) = (4 * ((List.length bs + 2) / 3))%nat.
Proof. unfold Base64.toString. rewrite length_string_of_list. apply length_encode. Qed.

(* ------------------------------------------------------------------ *)
(** ** The curve primitive *)

Lemma length_numberToBytesLE (n : Z) (len : nat) :
  List.length (X25519.numberToBytesLE n len) = len.
Proof.
  revert n. induction len as [| len IH]; intros n; simpl; [reflexivity |].
  now rewrite IH.
Qed.

(** A public key that the primitive returns has 32 bytes. *)
Lemma getPublicKey_length (k pk : list byte) :
  X25519.getPublicKey k = Ok pk -> List.length pk = 32%nat.
Proof.
  unfold X25519.getPublicKey, X25519.scalarMult. intros H.
  destruct (negb (Nat.eqb (List.length k) 32)); [discriminate |].
  destruct (negb (Nat.eqb (List.length (X25519.encodeU X25519.Gu)) 32));
    [discriminate |].
  destruct (_ =? 0); [discriminate |].
  injection H as <-. apply length_numberToBytesLE.
Qed.

Section FastLadder.

Local Notation "[[ x ]]" := (BigZ.to_Z x).

Lemma fast_modP n : [[FastX25519.modP n]] = X25519.modP [[n]].
Proof.
  unfold FastX25519.modP, X25519.modP, FastX25519.P.
  now rewrite BigZ.spec_modulo, BigZ.spec_of_Z.
Qed.

Ltac to_Z :=
  repeat (rewrite ?fast_modP, ?BigZ.spec_mul, ?BigZ.spec_add, ?BigZ.spec_sub,
           ?BigZ.spec_of_Z).

Lemma fast_cswap sw a b :
  ([[fst (FastX25519.cswap sw a b)]], [[snd (FastX25519.cswap sw a b)]])
  = X25519.cswap sw [[a]] [[b]].
Proof.
  unfold FastX25519.cswap, X25519.cswap. cbv zeta. cbn [fst snd].
  to_Z. reflexivity.
Qed.

Lemma fast_step x_1 k t s :
  to_state (FastX25519.ladder_step x_1 k t s)
  = X25519.ladder_step [[x_1]] k t (to_state s).
Proof.
  unfold FastX25519.ladder_step, X25519.ladder_step, to_state.
  unfold FastX25519.cswap, X25519.cswap, FastX25519.a24.
  cbv beta iota zeta.
  cbn [X25519.x_2 X25519.z_2 X25519.x_3 X25519.z_3 X25519.swap
       FastX25519.x_2 FastX25519.z_2 FastX25519.x_3 FastX25519.z_3
       FastX25519.swap].
  to_Z. reflexivity.
Qed.

Lemma fast_loop x_1 k n s :
  to_state (FastX25519.ladder_loop x_1 k n s)
  = X25519.ladder_loop [[x_1]] k n (to_state s).
Proof.
  revert s. induction n as [| n IH]; intros s; simpl; [reflexivity |].
  now rewrite IH, fast_step.
Qed.

Lemma fast_pow_mod z e :
  [[FastX25519.pow_mod z e]] = X25519.pow_mod [[z]] e.
Proof.
  induction e as [e IH | e IH |]; simpl; to_Z; now rewrite ?IH.
Qed.

(** The two ladders compute the same number. *)
Lemma montgomeryLadder_fast u k :
  FastX25519.montgomeryLadder u k = X25519.montgomeryLadder [[u]] k.
Proof.
  unfold FastX25519.montgomeryLadder, X25519.montgomeryLadder.
  cbv zeta.
  set (s := FastX25519.ladder_loop u k 255 _).
  assert (Hs : X25519.ladder_loop [[u]] k 255
                 {| X25519.x_2 := 1; X25519.z_2 := 0; X25519.x_3 := [[u]];
                    X25519.z_3 := 1; X25519.swap := 0 |} = to_state s).
  { subst s. rewrite fast_loop. f_equal. }
  rewrite Hs. unfold to_state.
  cbn [X25519.x_2 X25519.z_2 X25519.x_3 X25519.z_3 X25519.swap].
  rewrite <- !fast_cswap.
  destruct (FastX25519.cswap (FastX25519.swap s) (FastX25519.x_2 s)
              (FastX25519.x_3 s)) as [a b].
  destruct (FastX25519.cswap (FastX25519.swap s) (FastX25519.z_2 s)
              (FastX25519.z_3 s)) as [c d].
  cbn [fst snd]. unfold FastX25519.powPminus2, X25519.powPminus2.
  to_Z. now rewrite fast_pow_mod.
Qed.

Lemma getPublicKey_fast k :
  X25519.getPublicKey k = FastX25519.getPublicKey k.
Proof.
  unfold X25519.getPublicKey, FastX25519.getPublicKey,
    X25519.scalarMult, FastX25519.scalarMult.
  cbv zeta. now rewrite montgomeryLadder_fast, BigZ.spec_of_Z.
Qed.

End FastLadder.

(* ------------------------------------------------------------------ *)
(** ** Test vectors *)

Local Open Scope string_scope.
Local Open Scope list_scope.

Lemma readme_private_decoded : Base64.from readme_private = readme_private_bytes.
Proof. vm_compute. reflexivity. Qed.

Lemma readme_public_encoded : Base64.toString readme_public_bytes = readme_public.
Proof. vm_compute. reflexivity. Qed.

Lemma readme_vector :
  X25519.getPublicKey readme_private_bytes = Ok readme_public_bytes.
Proof. rewrite getPublicKey_fast. vm_compute. reflexivity. Qed.

(** Alice's key pair of RFC 7748, section 6.1. *)
Example rfc7748_alice :
  X25519.getPublicKey
    (bytes_of_hex_digits
       [7;7;0;7;6;13;0;10;7;3;1;8;10;5;7;13;3;12;1;6;12;1;7;2;5;1;11;2;6;6;4;5;
        13;15;4;12;2;15;8;7;14;11;12;0;9;9;2;10;11;1;7;7;15;11;10;5;1;13;11;9;2;12;2;10])
  = Ok (bytes_of_hex_digits
       [8;5;2;0;15;0;0;9;8;9;3;0;10;7;5;4;7;4;8;11;7;13;13;12;11;4;3;14;15;7;5;10;
        0;13;11;15;3;10;0;13;2;6;3;8;1;10;15;4;14;11;10;4;10;9;8;14;10;10;9;11;4;14;6;10]).
Proof. rewrite getPublicKey_fast. vm_compute. reflexivity. Qed.

Lemma body_pad_sextets (l : list ascii) :
  body_pad l = true ->
  (List.length (Base64.sextets l) + pad_count l = List.length l)%nat
  /\ (pad_count l <= 2)%nat.
Proof.
  induction l as [| c l IH]; intros H.
  - split; [reflexivity | unfold pad_count; simpl; lia].
  - simpl in H. destruct (is_std_char c) eqn:Ec.
    + destruct (std_char_value c Ec) as [Hp [v Hv]].
      destruct (IH H) as [IH1 IH2].
      unfold pad_count in *. simpl. rewrite Hp, Hv. simpl. lia.
    + apply andb_prop in H as [Hc H].
      unfold pad_count. simpl. rewrite Hc. simpl.
      destruct l as [| c' [| c'' l'']]; try discriminate.
      * simpl. lia.
      * simpl. rewrite H. simpl. lia.
Qed.

(** On valid base64, [Buffer.from] gives as many bytes as the string
    stands for. *)
Lemma from_valid_length (s : string) :
  is_base64 s = true ->
  List.length (Base64.from s) = base64_decoded_length s.
Proof.
  unfold is_base64, base64_decoded_length, Base64.from. cbv zeta.
  set (l := list_ascii_of_string s). intros H.
  apply andb_prop in H as [Hm Hb]. apply Nat.eqb_eq in Hm.
  destruct (body_pad_sextets l Hb) as [H1 H2].
  rewrite length_decode.
  pose proof (Nat.div_mod_eq (List.length l) 4) as Hd. rewrite Hm in Hd.
  set (m := (List.length l / 4)%nat) in *.
  set (k := pad_count l) in *.
  assert (Hs : List.length (Base64.sextets l) = (4 * m - k)%nat) by lia.
  rewrite Hs.
  assert (Hk : (k = 0 \/ k = 1 \/ k = 2)%nat) by lia.
  assert (Hm0 : (k <= 4 * m)%nat) by lia.
  destruct Hk as [-> | [-> | ->]].
  - replace ((4 * m - 0) * 3)%nat with (3 * m * 4)%nat by lia.
    rewrite Nat.div_mul by lia. lia.
  - replace ((4 * m - 1) * 3)%nat with ((3 * m - 1) * 4 + 1)%nat by lia.
    rewrite Nat.div_add_l by lia. simpl. lia.
  - replace ((4 * m - 2) * 3)%nat with ((3 * m - 2) * 4 + 2)%nat by lia.
    rewrite Nat.div_add_l by lia. simpl. lia.
Qed.

(** A valid base64 string that stands for 32 bytes has 44 characters. *)
Lemma valid_32_length (s : string) :
  is_base64 s = true -> base64_decoded_length s = 32%nat ->
  String.length s = 44%nat.
Proof.
  unfold is_base64, base64_decoded_length. cbv zeta.
  rewrite <- (length_list_of_string s).
  set (l := list_ascii_of_string s). intros H H32.
  apply andb_prop in H as [Hm Hb]. apply Nat.eqb_eq in Hm.
  destruct (body_pad_sextets l Hb) as [_ H2].
  pose proof (Nat.div_mod_eq (List.length l) 4) as Hd. lia.
Qed.

(** The shape of what the encoder writes: characters of the alphabet, then
    the padding. *)
Lemma encode_shape (bs : list byte) :
  exists body,
    Base64.encode bs = body ++ repeat Base64.pad (npad (List.length bs))
    /\ forallb is_std_char body = true.
Proof.
  induction bs as [| x | x y | x y z rest IH] using list_ind3.
  - exists []. split; reflexivity.
  - exists [Base64.b64char (s0 x); Base64.b64char (s1 x x00)].
    rewrite encode_one. split; [reflexivity |]. simpl.
    now rewrite !b64char_std by (apply s0_range || apply s1_range).
  - exists [Base64.b64char (s0 x); Base64.b64char (s1 x y);
            Base64.b64char (s2 y x00)].
    rewrite encode_two. split; [reflexivity |]. simpl.
    now rewrite !b64char_std
      by (apply s0_range || apply s1_range || apply s2_range).
  - destruct IH as [body [IH1 IH2]].
    exists (Base64.b64char (s0 x) :: Base64.b64char (s1 x y)
            :: Base64.b64char (s2 y z) :: Base64.b64char (s3 z) :: body).
    rewrite encode_group, IH1. split.
    + unfold npad. cbn [List.length].
      replace (S (S (S (List.length rest))))
        with (List.length rest + 1 * 3)%nat by lia.
      rewrite Nat.Div0.mod_add. reflexivity.
    + cbn [forallb]. rewrite IH2.
      now rewrite !b64char_std
        by (apply s0_range || apply s1_range || apply s2_range || apply s3_range).
Qed.

Lemma body_pad_app (body : list ascii) (k : nat) :
  forallb is_std_char body = true -> (k <= 2)%nat ->
  body_pad (body ++ repeat Base64.pad k) = true.
Proof.
  intros Hb Hk. induction body as [| c body IH].
  - destruct k as [| [| [| k]]]; try reflexivity. lia.
  - simpl in Hb. apply andb_prop in Hb as [Hc Hb].
    simpl. rewrite Hc. now apply IH.
Qed.

Lemma npad_le (n : nat) : (npad n <= 2)%nat.
Proof. unfold npad. destruct (n mod 3)%nat as [| [| ?]]; lia. Qed.

(** The encoder writes valid base64. *)
Lemma is_base64_toString (bs : list byte) :
  is_base64 (Base64.toString bs) = true.
Proof.
  unfold is_base64, Base64.toString. cbv zeta.
  rewrite list_ascii_of_string_of_list_ascii.
  apply andb_true_intro. split.
  - rewrite length_encode, Nat.mul_comm, Nat.Div0.mod_mul. reflexivity.
  - destruct (encode_shape bs) as [body [-> Hb]].
    apply body_pad_app; [exact Hb | apply npad_le].
Qed.

Lemma sextets_app_pad (body t : list ascii) :
  forallb is_std_char body = true ->
  Base64.sextets (body ++ Base64.pad :: t) = Base64.sextets body.
Proof.
  intros Hb. induction body as [| c body IH].
  - reflexivity.
  - simpl in Hb. apply andb_prop in Hb as [Hc Hb].
    destruct (std_char_value c Hc) as [Hp [v Hv]].
    simpl. rewrite Hp, Hv. now rewrite IH.
Qed.

(** The encoding of 32 bytes: 43 characters of the alphabet and one [=]. *)
Lemma encode_32 (bs : list byte) :
  List.length bs = 32%nat ->
  exists body,
    Base64.encode bs = body ++ [Base64.pad]
    /\ List.length body = 43%nat
    /\ forallb is_std_char body = true.
Proof.
  intros H. destruct (encode_shape bs) as [body [He Hb]].
  rewrite H in He. change (npad 32) with 1%nat in He. simpl repeat in He.
  exists body. repeat split; try assumption.
  pose proof (length_encode bs) as Hl. rewrite He, H in Hl.
  rewrite length_app in Hl. simpl in Hl. lia.
Qed.

(* ------------------------------------------------------------------ *)
(** ** The exported functions on Node *)

Arguments X25519.getPublicKey : simpl never.
Arguments Base64.from : simpl never.
Arguments Base64.toString : simpl never.

Lemma derivePublicKey_node (s : string) (w : World) :
  derivePublicKey s w =
  (if negb (Nat.eqb (List.length (Base64.from s)) 32)
   then Throw key_length_error
   else match X25519.getPublicKey (Base64.from s) with
        | Ok pk => Ok (Base64.toString pk)
        | Throw e => Throw e
        end, w).
Proof.
  unfold derivePublicKey, bind, throw, pure. simpl.
  destruct (negb (Nat.eqb (List.length (Base64.from s)) 32)); [reflexivity |].
  unfold pure. destruct (X25519.getPublicKey (Base64.from s)); reflexivity.
Qed.

Lemma validatePublicKey_node (s : string) (w : World) :
  validatePublicKey s w =
  (Ok (Nat.eqb (String.length s) 44
       && Nat.eqb (List.length (Base64.from s)) 32), w).
Proof.
  unfold validatePublicKey, try_catch, bind, ret, pure. simpl.
  destruct (Nat.eqb (String.length s) 44); reflexivity.
Qed.

Lemma generatePrivateKey_node (bs rest : list byte) :
  List.length bs = 32%nat ->
  generatePrivateKey (bs ++ rest) = (Ok (Base64.toString bs), rest).
Proof.
  intros H. unfold generatePrivateKey, bind. simpl. unfold node_randomBytes.
  rewrite length_app, H.
  replace (Nat.ltb (32 + List.length rest) 32) with false
    by (symmetry; apply Nat.ltb_ge; lia).
  rewrite <- H, firstn_app, skipn_app, Nat.sub_diag, firstn_all, skipn_all.
  simpl. now rewrite app_nil_r.
Qed.

(** The length gate precedes every call of the platform. *)
Lemma validatePublicKey_length_gate {P : Platform} (s : string) (w : World) :
  String.length s <> 44%nat -> validatePublicKey s w = (Ok false, w).
Proof.
  intros H. unfold validatePublicKey.
  apply Nat.eqb_neq in H. rewrite H. reflexivity.
Qed.

Lemma derivePublicKey_wrong_length (s : string) (w : World) :
  List.length (Base64.from s) <> 32%nat ->
  derivePublicKey s w = (Throw key_length_error, w).
Proof.
  intros H. rewrite derivePublicKey_node.
  apply Nat.eqb_neq in H. rewrite H. reflexivity.
Qed.

(** What [derivePublicKey] returns passes for 32 bytes of base64. *)
Lemma derivePublicKey_ok (s : string) (w w' : World) (pk : string) :
  derivePublicKey s w = (Ok pk, w') ->
  w' = w /\ exists bytes,
    X25519.getPublicKey (Base64.from s) = Ok bytes
    /\ List.length (Base64.from s) = 32%nat
    /\ List.length bytes = 32%nat /\ pk = Base64.toString bytes.
Proof.
  rewrite derivePublicKey_node. intros H.
  destruct (Nat.eqb (List.length (Base64.from s)) 32) eqn:E;
    simpl in H; [| discriminate].
  destruct (X25519.getPublicKey (Base64.from s)) as [bytes |] eqn:Eg;
    [| discriminate].
  injection H as <- <-. split; [reflexivity |].
  exists bytes. apply Nat.eqb_eq in E.
  repeat split; try assumption. now apply getPublicKey_length in Eg.
Qed.

Lemma validatePublicKey_encoded (bytes : list byte) (w : World) :
  List.length bytes = 32%nat ->
  validatePublicKey (Base64.toString bytes) w = (Ok true, w).
Proof.
  intros H. rewrite validatePublicKey_node, length_toString, from_toString, H.
  reflexivity.
Qed.

(** Half of the validator's contract holds: valid base64 for 32 bytes is
    accepted. *)
Lemma validatePublicKey_accepts_valid (s : string) (w : World) :
  is_base64 s = true -> base64_decoded_length s = 32%nat ->
  validatePublicKey s w = (Ok true, w).
Proof.
  intros Hv H32. rewrite validatePublicKey_node.
  rewrite (valid_32_length s Hv H32), (from_valid_length s Hv), H32.
  reflexivity.
Qed.


Lemma unpadded_decodes (bs : list byte) :
  List.length bs = 32%nat ->
  String.length (unpadded bs) = 43%nat /\ Base64.from (unpadded bs) = bs.
Proof.
  intros H. destruct (encode_32 bs H) as [body [He [Hl Hb]]].
  unfold unpadded, Base64.from.
  rewrite length_string_of_list, list_ascii_of_string_of_list_ascii, He.
  assert (Hf : firstn 43 (body ++ [Base64.pad]) = body).
  { rewrite <- Hl, firstn_app, Nat.sub_diag, firstn_all. apply app_nil_r. }
  rewrite Hf. split; [exact Hl |].
  rewrite decode_pack, <- (sextets_app_pad body [] Hb), <- He.
  apply pack_sextets_encode.
Qed.

Lemma generateWireguardKeyPair_node (rnd rest : list byte) :
  List.length rnd = 32%nat ->
  generateWireguardKeyPair (rnd ++ rest) =
  (match X25519.getPublicKey rnd with
   | Ok pk => Ok {| privateKey := Base64.toString rnd;
                    publicKey := Base64.toString pk |}
   | Throw e => Throw e
   end, rest).
Proof.
  intros H. unfold generateWireguardKeyPair.
  unfold bind at 1. rewrite (generatePrivateKey_node rnd rest H).
  unfold bind. rewrite derivePublicKey_node, from_toString, H.
  simpl. destruct (X25519.getPublicKey rnd); reflexivity.
Qed.

Lemma derivePublicKey_readme (w : World) :
  derivePublicKey readme_private w = (Ok readme_public, w).
Proof.
  rewrite derivePublicKey_node, readme_private_decoded, readme_vector.
  rewrite readme_public_encoded. reflexivity.
Qed.

(* ================================================================== *)
(** * The claims *)

(** C1 (the validator accepts exactly valid base64 for 32 bytes) fails on
    the code: a 44-character string that ends in [!], which is not valid
    base64, is accepted, because [Buffer.from] skips the [!] instead of
    throwing and the remaining 43 characters decode to 32 bytes. *)
Theorem validatePublicKey_accepts_invalid_base64 :
  forall w : World,
    is_base64 "Y3AdHf4MAZi3xgCFxiDfyPBNbBQKuTqTCoDI/XHrnQg!" = false
    /\ validatePublicKey "Y3AdHf4MAZi3xgCFxiDfyPBNbBQKuTqTCoDI/XHrnQg!" w
       = (Ok true, w).
Proof.
  intros w. split; [vm_compute; reflexivity |].
  rewrite validatePublicKey_node. f_equal.
Qed.

(** C2, as stated, is false: on a string that is not valid base64 (the
    README's private key with [!] for its padding) [derivePublicKey] does
    not fail at all, it returns the README's public key. *)
Lemma derivePublicKey_invalid_base64_succeeds :
  is_base64 "nPse/4zbQGxOqAM14icWRru4I6g9s9xdhg9sCY2l3ck!" = false
  /\ derivePublicKey "nPse/4zbQGxOqAM14icWRru4I6g9s9xdhg9sCY2l3ck!" []
     = (Ok "Y3AdHf4MAZi3xgCFxiDfyPBNbBQKuTqTCoDI/XHrnQg=", []).
Proof.
  split; [vm_compute; reflexivity |].
  rewrite derivePublicKey_node.
  assert (H : Base64.from "nPse/4zbQGxOqAM14icWRru4I6g9s9xdhg9sCY2l3ck!"
              = readme_private_bytes) by (vm_compute; reflexivity).
  rewrite H, readme_vector, readme_public_encoded. reflexivity.
Qed.

(** C2, amended: for every string that is not valid base64 and that
    [Buffer.from] does not decode to exactly 32 bytes, [derivePublicKey]
    fails, with the error of a wrong key length; there is no separate
    error for the encoding. *)
Theorem derivePublicKey_invalid_base64_wrong_length :
  forall (s : string) (w : World),
    is_base64 s = false ->
    List.length (Base64.from s) <> 32%nat ->
    derivePublicKey s w
    = (Throw (Error "Private key must be 32 bytes long"), w).
Proof.
  intros s w _ H. rewrite derivePublicKey_node.
  apply Nat.eqb_neq in H. rewrite H. reflexivity.
Qed.

Lemma derivePublicKey_invalid_base64_wrong_length_witness :
  is_base64 "!!!!" = false
  /\ List.length (Base64.from "!!!!") <> 32%nat
  /\ derivePublicKey "!!!!" []
     = (Throw (Error "Private key must be 32 bytes long"), []).
Proof.
  assert (H1 : is_base64 "!!!!" = false) by reflexivity.
  assert (H2 : List.length (Base64.from "!!!!") <> 32%nat)
    by (vm_compute; discriminate).
  exact (conj H1 (conj H2
           (derivePublicKey_invalid_base64_wrong_length "!!!!" [] H1 H2))).
Defined.

(** C3: for every valid base64 string that stands for a number of bytes
    other than 32, [derivePublicKey] fails with the key-length error and
    returns no public key. *)
Theorem derivePublicKey_rejects_other_lengths :
  forall (s : string) (w : World),
    is_base64 s = true ->
    base64_decoded_length s <> 32%nat ->
    derivePublicKey s w
    = (Throw (Error "Private key must be 32 bytes long"), w).
Proof.
  intros s w Hv H. rewrite derivePublicKey_node.
  rewrite (from_valid_length s Hv).
  apply Nat.eqb_neq in H. rewrite H. reflexivity.
Qed.

(** 16 bytes. *)
Lemma derivePublicKey_rejects_other_lengths_witness :
  is_base64 "AAECAwQFBgcICQoLDA0ODw==" = true
  /\ base64_decoded_length "AAECAwQFBgcICQoLDA0ODw==" = 16%nat
  /\ derivePublicKey "AAECAwQFBgcICQoLDA0ODw==" []
     = (Throw (Error "Private key must be 32 bytes long"), []).
Proof.
  assert (H1 : is_base64 "AAECAwQFBgcICQoLDA0ODw==" = true) by reflexivity.
  assert (H2 : base64_decoded_length "AAECAwQFBgcICQoLDA0ODw==" = 16%nat)
    by reflexivity.
  refine (conj H1 (conj H2
            (derivePublicKey_rejects_other_lengths _ [] H1 _))).
  rewrite H2. discriminate.
Defined.

(** 33 bytes: the README's private key and one more byte. *)
Example derivePublicKey_33_bytes :
  Base64.toString (readme_private_bytes ++ [x00])
  = "nPse/4zbQGxOqAM14icWRru4I6g9s9xdhg9sCY2l3ckA"
  /\ derivePublicKey "nPse/4zbQGxOqAM14icWRru4I6g9s9xdhg9sCY2l3ckA" []
     = (Throw key_length_error, []).
Proof.
  split; [vm_compute; reflexivity |].
  apply derivePublicKey_wrong_length. vm_compute. discriminate.
Qed.

(** C4: for every 32-byte draw, the pair that [generateWireguardKeyPair]
    returns holds the encoding of the draw as its private key, and
    [derivePublicKey] on that private key succeeds with the pair's public
    key.  No pair is returned only if the curve primitive rejects the
    draw, and then its error is passed on. *)
Theorem generateWireguardKeyPair_consistent :
  forall rnd rest : list byte,
    List.length rnd = 32%nat ->
    match generateWireguardKeyPair (rnd ++ rest) with
    | (Ok keyPair, w') =>
        w' = rest
        /\ privateKey keyPair = Base64.toString rnd
        /\ derivePublicKey (privateKey keyPair) w'
           = (Ok (publicKey keyPair), w')
    | (Throw e, w') =>
        w' = rest /\ X25519.getPublicKey rnd = Throw e
    end.
Proof.
  intros rnd rest H. rewrite (generateWireguardKeyPair_node rnd rest H).
  destruct (X25519.getPublicKey rnd) as [pk | e] eqn:E.
  - cbn [privateKey publicKey]. repeat split.
    now rewrite derivePublicKey_node, from_toString, H, E.
  - split; reflexivity.
Qed.

Lemma generateWireguardKeyPair_consistent_witness :
  List.length readme_private_bytes = 32%nat
  /\ generateWireguardKeyPair (readme_private_bytes ++ [])
     = (Ok {| privateKey := "nPse/4zbQGxOqAM14icWRru4I6g9s9xdhg9sCY2l3ck=";
              publicKey := "Y3AdHf4MAZi3xgCFxiDfyPBNbBQKuTqTCoDI/XHrnQg=" |},
        [])
  /\ derivePublicKey "nPse/4zbQGxOqAM14icWRru4I6g9s9xdhg9sCY2l3ck=" []
     = (Ok "Y3AdHf4MAZi3xgCFxiDfyPBNbBQKuTqTCoDI/XHrnQg=", []).
Proof.
  assert (H : List.length readme_private_bytes = 32%nat) by reflexivity.
  assert (G : generateWireguardKeyPair (readme_private_bytes ++ [])
              = (Ok {| privateKey := readme_private;
                       publicKey := readme_public |}, [])).
  { rewrite (generateWireguardKeyPair_node _ [] H), readme_vector.
    rewrite readme_public_encoded.
    assert (E : Base64.toString readme_private_bytes = readme_private)
      by (vm_compute; reflexivity).
    rewrite E. reflexivity. }
  pose proof (generateWireguardKeyPair_consistent readme_private_bytes [] H)
    as T.
  rewrite G in T. destruct T as [_ [_ T]].
  exact (conj H (conj G T)).
Defined.

(** C5: [derivePublicKey] is deterministic and pure: its outcome is a
    function of the input string alone, whatever the state of the random
    source, and it leaves that state as it found it. *)
Theorem derivePublicKey_deterministic :
  forall s : string,
    exists r : res string,
      forall w : World, derivePublicKey s w = (r, w).
Proof.
  intros s. eexists. intros w. apply derivePublicKey_node.
Qed.

(** C6: the README's private key gives the README's public key. *)
Theorem derivePublicKey_test_vector :
  forall w : World,
    derivePublicKey "nPse/4zbQGxOqAM14icWRru4I6g9s9xdhg9sCY2l3ck=" w
    = (Ok "Y3AdHf4MAZi3xgCFxiDfyPBNbBQKuTqTCoDI/XHrnQg=", w).
Proof.
  intros w. rewrite derivePublicKey_node.
  change (Base64.from "nPse/4zbQGxOqAM14icWRru4I6g9s9xdhg9sCY2l3ck=")
    with (Base64.from readme_private).
  rewrite readme_private_decoded, readme_vector, readme_public_encoded.
  reflexivity.
Qed.

(** C7: for every 32 bytes [bs] that the random source delivers,
    [generatePrivateKey] consumes them and returns their base64 encoding:
    44 characters, 43 of the standard alphabet and one [=], valid base64,
    which decodes back to [bs]. *)
Theorem generatePrivateKey_encoding :
  forall bs rest : list byte,
    List.length bs = 32%nat ->
    exists (s : string) (body : list ascii),
      generatePrivateKey (bs ++ rest) = (Ok s, rest)
      /\ s = Base64.toString bs
      /\ String.length s = 44%nat
      /\ list_ascii_of_string s = body ++ ["="%char]
      /\ List.length body = 43%nat
      /\ forallb is_std_char body = true
      /\ is_base64 s = true
      /\ Base64.from s = bs.
Proof.
  intros bs rest H. destruct (encode_32 bs H) as [body [He [Hl Hb]]].
  exists (Base64.toString bs), body.
  split; [now apply generatePrivateKey_node |].
  split; [reflexivity |].
  split; [now rewrite length_toString, H |].
  split; [unfold Base64.toString;
          now rewrite list_ascii_of_string_of_list_ascii |].
  split; [exact Hl |]. split; [exact Hb |].
  split; [apply is_base64_toString | apply from_toString].
Qed.

Lemma generatePrivateKey_encoding_witness :
  List.length readme_private_bytes = 32%nat
  /\ exists (s : string) (body : list ascii),
      generatePrivateKey (readme_private_bytes ++ [x2a]) = (Ok s, [x2a])
      /\ s = Base64.toString readme_private_bytes
      /\ String.length s = 44%nat
      /\ list_ascii_of_string s = body ++ ["="%char]
      /\ List.length body = 43%nat
      /\ forallb is_std_char body = true
      /\ is_base64 s = true
      /\ Base64.from s = readme_private_bytes.
Proof.
  assert (H : List.length readme_private_bytes = 32%nat) by reflexivity.
  exact (conj H (generatePrivateKey_encoding readme_private_bytes [x2a] H)).
Defined.

(** C8: on every platform, whatever its decoder does, [validatePublicKey]
    returns a boolean and never throws; if the decoder throws on the
    string, the result is [false]. *)
Theorem validatePublicKey_total :
  forall (P : Platform) (s : string) (w : World),
    (exists (b : bool) (w' : World), validatePublicKey s w = (Ok b, w'))
    /\ (forall (e : exn) (w1 : World),
          Buffer_from_base64 s w = (Throw e, w1) ->
          exists w' : World, validatePublicKey s w = (Ok false, w')).
Proof.
  intros P s w. unfold validatePublicKey.
  destruct (negb (Nat.eqb (String.length s) 44)).
  - split; [exists false, w; reflexivity |].
    intros e w1 _. exists w. reflexivity.
  - split.
    + destruct (try_catch_total
                  (decoded <- Buffer_from_base64 s ;;
                   ret (Nat.eqb (List.length decoded) 32)) false w)
        as [b [w' H]].
      exists b, w'. exact H.
    + intros e w1 H. exists w1.
      unfold try_catch, bind. rewrite H. reflexivity.
Qed.

Lemma validatePublicKey_total_witness :
  @Buffer_from_base64 throwing_decoder
     "Y3AdHf4MAZi3xgCFxiDfyPBNbBQKuTqTCoDI/XHrnQg=" []
  = (Throw (Error "Invalid base64"), [])
  /\ exists w' : World,
      @validatePublicKey throwing_decoder
        "Y3AdHf4MAZi3xgCFxiDfyPBNbBQKuTqTCoDI/XHrnQg=" [] = (Ok false, w').
Proof.
  assert (H : @Buffer_from_base64 throwing_decoder
                "Y3AdHf4MAZi3xgCFxiDfyPBNbBQKuTqTCoDI/XHrnQg=" []
              = (Throw (Error "Invalid base64"), [])) by reflexivity.
  exact (conj H
           (proj2 (validatePublicKey_total throwing_decoder _ []) _ _ H)).
Defined.

(** C9: every string whose length is not 44 is rejected; in particular
    the 43-character encoding without padding of any 32-byte value [bs]
    is rejected, although [Buffer.from] decodes it to [bs]. *)
Theorem validatePublicKey_rejects_other_lengths :
  forall (s : string) (w : World),
    String.length s <> 44%nat ->
    validatePublicKey s w = (Ok false, w)
    /\ (forall bs : list byte,
          List.length bs = 32%nat ->
          String.length (unpadded bs) = 43%nat
          /\ Base64.from (unpadded bs) = bs
          /\ validatePublicKey (unpadded bs) w = (Ok false, w)).
Proof.
  intros s w H. split; [now apply validatePublicKey_length_gate |].
  intros bs Hb. destruct (unpadded_decodes bs Hb) as [Hl Hd].
  repeat split; try assumption.
  apply validatePublicKey_length_gate. rewrite Hl. discriminate.
Qed.

Lemma validatePublicKey_rejects_other_lengths_witness :
  String.length "nPse/4zbQGxOqAM14icWRru4I6g9s9xdhg9sCY2l3ck" <> 44%nat
  /\ validatePublicKey "nPse/4zbQGxOqAM14icWRru4I6g9s9xdhg9sCY2l3ck" []
     = (Ok false, [])
  /\ unpadded readme_private_bytes
     = "nPse/4zbQGxOqAM14icWRru4I6g9s9xdhg9sCY2l3ck"
  /\ Base64.from (unpadded readme_private_bytes) = readme_private_bytes.
Proof.
  assert (H : String.length "nPse/4zbQGxOqAM14icWRru4I6g9s9xdhg9sCY2l3ck"
              <> 44%nat) by (simpl; discriminate).
  destruct (validatePublicKey_rejects_other_lengths _ [] H) as [T1 T2].
  destruct (T2 readme_private_bytes eq_refl) as [_ [T3 _]].
  assert (U : unpadded readme_private_bytes
              = "nPse/4zbQGxOqAM14icWRru4I6g9s9xdhg9sCY2l3ck")
    by (vm_compute; reflexivity).
  exact (conj H (conj T1 (conj U T3))).
Defined.

(** C10: whenever [derivePublicKey] succeeds, the string it returns
    passes [validatePublicKey]. *)
Theorem validatePublicKey_derivePublicKey :
  forall (s pk : string) (w w' : World),
    derivePublicKey s w = (Ok pk, w') ->
    validatePublicKey pk w' = (Ok true, w').
Proof.
  intros s pk w w' H.
  destruct (derivePublicKey_ok s w w' pk H) as [_ [bytes [_ [_ [Hl ->]]]]].
  now apply validatePublicKey_encoded.
Qed.

Lemma validatePublicKey_derivePublicKey_witness :
  derivePublicKey "nPse/4zbQGxOqAM14icWRru4I6g9s9xdhg9sCY2l3ck=" []
  = (Ok "Y3AdHf4MAZi3xgCFxiDfyPBNbBQKuTqTCoDI/XHrnQg=", [])
  /\ validatePublicKey "Y3AdHf4MAZi3xgCFxiDfyPBNbBQKuTqTCoDI/XHrnQg=" []
     = (Ok true, []).
Proof.
  pose proof (derivePublicKey_readme []) as H.
  exact (conj H (validatePublicKey_derivePublicKey _ _ _ _ H)).
Defined.

(* ================================================================== *)
(** * Further properties of the exported functions *)

Lemma list_ascii_of_string_app (a b : string) :
  list_ascii_of_string (a ++ b)%string
  = list_ascii_of_string a ++ list_ascii_of_string b.
Proof. induction a as [| c a IH]; simpl; [reflexivity | now rewrite IH]. Qed.

Lemma toString_injective (a b : list byte) :
  Base64.toString a = Base64.toString b -> a = b.
Proof.
  intros H. rewrite <- (from_toString a), <- (from_toString b). now rewrite H.
Qed.

(** A pair is returned only from a world that holds 32 bytes, which are
    consumed, and only if the curve primitive accepts them. *)
Lemma generateWireguardKeyPair_ok (w w' : World) (kp : WireGuardKeyPair) :
  generateWireguardKeyPair w = (Ok kp, w') ->
  exists rnd pk,
    List.length rnd = 32%nat /\ w = rnd ++ w'
    /\ X25519.getPublicKey rnd = Ok pk
    /\ List.length pk = 32%nat
    /\ kp = {| privateKey := Base64.toString rnd;
               publicKey := Base64.toString pk |}.
Proof.
  intros H. destruct (Nat.ltb (List.length w) 32) eqn:E.
  - exfalso. revert H.
    unfold generateWireguardKeyPair, generatePrivateKey, bind. simpl.
    unfold node_randomBytes. rewrite E. discriminate.
  - apply Nat.ltb_ge in E.
    assert (Hl : List.length (firstn 32 w) = 32%nat)
      by (apply firstn_length_le; exact E).
    rewrite <- (firstn_skipn 32 w) in H.
    rewrite (generateWireguardKeyPair_node _ _ Hl) in H.
    destruct (X25519.getPublicKey (firstn 32 w)) as [pk |] eqn:Eg;
      [| discriminate].
    injection H as <- <-.
    exists (firstn 32 w), pk. repeat split; try assumption.
    + symmetry. apply firstn_skipn.
    + now apply getPublicKey_length in Eg.
Qed.

(** The README's pair, from the README's private key as the draw. *)
Lemma generateWireguardKeyPair_readme (rest : list byte) :
  generateWireguardKeyPair (readme_private_bytes ++ rest)
  = (Ok {| privateKey := readme_private; publicKey := readme_public |}, rest).
Proof.
  rewrite (generateWireguardKeyPair_node readme_private_bytes rest eq_refl).
  rewrite readme_vector, readme_public_encoded.
  assert (E : Base64.toString readme_private_bytes = readme_private)
    by (vm_compute; reflexivity).
  rewrite E. reflexivity.
Qed.

(** X1: both keys of every pair that [generateWireguardKeyPair] returns
    are 44 characters of valid base64 that stand for 32 bytes, and both
    pass [validatePublicKey] (tests 3, 4 and 8 of the test suite). *)
Theorem generateWireguardKeyPair_well_formed :
  forall (w w' : World) (kp : WireGuardKeyPair),
    generateWireguardKeyPair w = (Ok kp, w') ->
    String.length (privateKey kp) = 44%nat
    /\ String.length (publicKey kp) = 44%nat
    /\ is_base64 (privateKey kp) = true
    /\ is_base64 (publicKey kp) = true
    /\ base64_decoded_length (privateKey kp) = 32%nat
    /\ base64_decoded_length (publicKey kp) = 32%nat
    /\ validatePublicKey (privateKey kp) w' = (Ok true, w')
    /\ validatePublicKey (publicKey kp) w' = (Ok true, w').
Proof.
  intros w w' kp H.
  destruct (generateWireguardKeyPair_ok w w' kp H)
    as [rnd [pk [Hr [_ [_ [Hp ->]]]]]].
  cbn [privateKey publicKey].
  rewrite !length_toString, Hr, Hp.
  rewrite <- !from_valid_length by apply is_base64_toString.
  rewrite !from_toString, !is_base64_toString.
  repeat split; try assumption; now apply validatePublicKey_encoded.
Qed.

Lemma generateWireguardKeyPair_well_formed_witness :
  generateWireguardKeyPair (readme_private_bytes ++ [x2a])
  = (Ok {| privateKey := readme_private; publicKey := readme_public |}, [x2a])
  /\ String.length readme_public = 44%nat
  /\ validatePublicKey readme_public [x2a] = (Ok true, [x2a]).
Proof.
  pose proof (generateWireguardKeyPair_readme [x2a]) as G.
  pose proof (generateWireguardKeyPair_well_formed _ _ _ G) as T.
  cbn [privateKey publicKey] in T.
  destruct T as [_ [T1 [_ [_ [_ [_ [_ T2]]]]]]].
  exact (conj G (conj T1 T2)).
Defined.

(** X2: a call of [generateWireguardKeyPair] that returns a pair has
    taken exactly 32 bytes from the random source, the private key is
    their encoding and decodes back to them, and the public key is the
    encoding of what the curve primitive gives for those bytes. *)
Theorem generateWireguardKeyPair_draws_32 :
  forall (w w' : World) (kp : WireGuardKeyPair),
    generateWireguardKeyPair w = (Ok kp, w') ->
    exists rnd pk : list byte,
      List.length rnd = 32%nat
      /\ w = rnd ++ w'
      /\ privateKey kp = Base64.toString rnd
      /\ Base64.from (privateKey kp) = rnd
      /\ X25519.getPublicKey rnd = Ok pk
      /\ publicKey kp = Base64.toString pk.
Proof.
  intros w w' kp H.
  destruct (generateWireguardKeyPair_ok w w' kp H)
    as [rnd [pk [Hr [Hw [Hg [_ ->]]]]]].
  exists rnd, pk. cbn [privateKey publicKey].
  rewrite from_toString. repeat split; assumption.
Qed.

Lemma generateWireguardKeyPair_draws_32_witness :
  generateWireguardKeyPair (readme_private_bytes ++ [x2a])
  = (Ok {| privateKey := readme_private; publicKey := readme_public |}, [x2a])
  /\ exists rnd pk : list byte,
      List.length rnd = 32%nat
      /\ readme_private_bytes ++ [x2a] = rnd ++ [x2a]
      /\ readme_private = Base64.toString rnd
      /\ Base64.from readme_private = rnd
      /\ X25519.getPublicKey rnd = Ok pk
      /\ readme_public = Base64.toString pk.
Proof.
  pose proof (generateWireguardKeyPair_readme [x2a]) as G.
  exact (conj G (generateWireguardKeyPair_draws_32 _ _ _ G)).
Defined.


(** X4: on valid base64 the validator is exact: such a string is accepted
    if and only if it stands for 32 bytes. *)
Theorem validatePublicKey_exact_on_base64 :
  forall (s : string) (w : World),
    is_base64 s = true ->
    (validatePublicKey s w = (Ok true, w)
     <-> base64_decoded_length s = 32%nat).
Proof.
  intros s w Hv. split.
  - rewrite validatePublicKey_node. intros H. injection H as H.
    apply andb_prop in H as [_ H]. apply Nat.eqb_eq in H.
    now rewrite <- from_valid_length.
  - intros H. now apply validatePublicKey_accepts_valid.
Qed.

Lemma validatePublicKey_exact_on_base64_witness :
  is_base64 readme_public = true
  /\ (validatePublicKey readme_public []
      = (Ok true, []) <-> base64_decoded_length readme_public = 32%nat).
Proof.
  assert (H : is_base64 readme_public = true) by reflexivity.
  exact (conj H (validatePublicKey_exact_on_base64 readme_public [] H)).
Defined.

Lemma forall_ascii (f : ascii -> bool) :
  forallb (fun n => f (ascii_of_nat n)) (seq 0 256) = true ->
  forall c, f c = true.
Proof.
  intros H c. rewrite forallb_forall in H.
  rewrite <- (ascii_nat_embedding c). apply H, in_seq.
  pose proof (nat_ascii_bounded c). lia.
Qed.

Lemma sextets_skip (junk b : list ascii) :
  forallb skipped_char junk = true ->
  Base64.sextets (junk ++ b) = Base64.sextets b.
Proof.
  intros H. induction junk as [| c junk IH]; [reflexivity |].
  simpl in H. apply andb_prop in H as [Hc H].
  unfold skipped_char in Hc. apply andb_prop in Hc as [Hp Hv].
  apply negb_true_iff in Hp. simpl. rewrite Hp.
  destruct (Base64.unbase64 c); [discriminate | now apply IH].
Qed.

Lemma sextets_insert (a junk b : list ascii) :
  forallb skipped_char junk = true ->
  Base64.sextets (a ++ junk ++ b) = Base64.sextets (a ++ b).
Proof.
  intros H. induction a as [| c a IH]; [simpl; now apply sextets_skip |].
  simpl. rewrite IH. reflexivity.
Qed.

(** X5: characters that the decoder passes over (white space, [!], ...)
    make no difference to [derivePublicKey], wherever they stand in the
    string: it decodes the same bytes and returns the same outcome. *)
Theorem derivePublicKey_ignores_skipped :
  forall (a junk b : string) (w : World),
    forallb skipped_char (list_ascii_of_string junk) = true ->
    Base64.from (a ++ junk ++ b)%string = Base64.from (a ++ b)%string
    /\ derivePublicKey (a ++ junk ++ b)%string w
       = derivePublicKey (a ++ b)%string w.
Proof.
  intros a junk b w H.
  assert (E : Base64.from (a ++ junk ++ b)%string
              = Base64.from (a ++ b)%string).
  { unfold Base64.from. rewrite !decode_pack, !list_ascii_of_string_app.
    now rewrite sextets_insert. }
  split; [exact E |]. now rewrite !derivePublicKey_node, E.
Qed.

(** The README's private key and a line feed: [validatePublicKey] rejects
    the string, [derivePublicKey] returns the README's public key. *)
Lemma derivePublicKey_ignores_skipped_witness :
  forallb skipped_char
    (list_ascii_of_string (String "010"%char EmptyString)) = true
  /\ derivePublicKey
       (readme_private ++ String "010"%char EmptyString ++ "")%string []
     = (Ok readme_public, [])
  /\ validatePublicKey
       (readme_private ++ String "010"%char EmptyString ++ "")%string []
     = (Ok false, []).
Proof.
  assert (H : forallb skipped_char
                (list_ascii_of_string (String "010"%char EmptyString)) = true)
    by reflexivity.
  destruct (derivePublicKey_ignores_skipped readme_private
              (String "010"%char EmptyString) "" [] H) as [_ T].
  assert (E : (readme_private ++ "")%string = readme_private) by reflexivity.
  rewrite E, derivePublicKey_readme in T.
  refine (conj H (conj T _)).
  apply validatePublicKey_length_gate. simpl. discriminate.
Defined.

Lemma urlsafe_char_same (c : ascii) :
  Ascii.eqb (urlsafe_char c) Base64.pad = Ascii.eqb c Base64.pad
  /\ Base64.unbase64 (urlsafe_char c) = Base64.unbase64 c.
Proof.
  pose proof (forall_ascii
    (fun c =>
       Bool.eqb (Ascii.eqb (urlsafe_char c) Base64.pad) (Ascii.eqb c Base64.pad)
       && match Base64.unbase64 (urlsafe_char c), Base64.unbase64 c with
          | Some u, Some v => Z.eqb u v
          | None, None => true
          | _, _ => false
          end)) as H.
  specialize (H ltac:(vm_compute; reflexivity) c). cbv beta in H.
  apply andb_prop in H as [H1 H2]. apply Bool.eqb_prop in H1.
  split; [exact H1 |].
  destruct (Base64.unbase64 (urlsafe_char c)), (Base64.unbase64 c);
    try discriminate; [| reflexivity].
  apply Z.eqb_eq in H2. now subst.
Qed.

Lemma sextets_urlsafe (l : list ascii) :
  Base64.sextets (map urlsafe_char l) = Base64.sextets l.
Proof.
  induction l as [| c l IH]; [reflexivity |].
  destruct (urlsafe_char_same c) as [H1 H2].
  simpl. now rewrite H1, H2, IH.
Qed.

(** X6: the URL-safe spelling of a key ([-] for [+], [_] for [/]) is
    read like the standard one: it decodes to the same bytes, and
    [derivePublicKey] and [validatePublicKey] return on it what they
    return on the standard spelling. *)
Theorem urlsafe_read_alike :
  forall (s : string) (w : World),
    Base64.from (urlsafe s) = Base64.from s
    /\ derivePublicKey (urlsafe s) w = derivePublicKey s w
    /\ validatePublicKey (urlsafe s) w = validatePublicKey s w.
Proof.
  intros s w.
  assert (E : Base64.from (urlsafe s) = Base64.from s).
  { unfold Base64.from, urlsafe.
    rewrite list_ascii_of_string_of_list_ascii, !decode_pack.
    now rewrite sextets_urlsafe. }
  assert (L : String.length (urlsafe s) = String.length s).
  { unfold urlsafe.
    now rewrite length_string_of_list, length_map, length_list_of_string. }
  split; [exact E |]. split.
  - now rewrite !derivePublicKey_node, E.
  - now rewrite !validatePublicKey_node, E, L.
Qed.

Lemma byte_val_injective (a b : byte) : byte_val a = byte_val b -> a = b.
Proof.
  intros H. rewrite <- (byte_of_val a), <- (byte_of_val b). now rewrite H.
Qed.

Lemma clamp_first_twice (b : byte) :
  byte_of (Z.land (byte_val (byte_of (Z.land (byte_val b) 248))) 248)
  = byte_of (Z.land (byte_val b) 248).
Proof.
  apply byte_val_injective, Z.eqb_eq. revert b.
  by_bytes1 (fun b =>
    Z.eqb
      (byte_val
         (byte_of (Z.land (byte_val (byte_of (Z.land (byte_val b) 248))) 248)))
      (byte_val (byte_of (Z.land (byte_val b) 248)))).
Qed.

Lemma clamp_last_twice (b : byte) :
  byte_of
    (Z.lor
       (byte_val
          (byte_of
             (Z.land
                (byte_val
                   (byte_of
                      (Z.lor (byte_val (byte_of (Z.land (byte_val b) 127))) 64)))
                127))) 64)
  = byte_of (Z.lor (byte_val (byte_of (Z.land (byte_val b) 127))) 64).
Proof.
  apply byte_val_injective, Z.eqb_eq. revert b.
  by_bytes1 (fun b =>
    Z.eqb
      (byte_val
         (byte_of
            (Z.lor
               (byte_val
                  (byte_of
                     (Z.land
                        (byte_val
                           (byte_of
                              (Z.lor
                                 (byte_val (byte_of (Z.land (byte_val b) 127)))
                                 64))) 127))) 64)))
      (byte_val
         (byte_of (Z.lor (byte_val (byte_of (Z.land (byte_val b) 127))) 64)))).
Qed.

Lemma length_set_nth (i : nat) (f : byte -> byte) (bs : list byte) :
  List.length (X25519.set_nth i f bs) = List.length bs.
Proof.
  unfold X25519.set_nth. rewrite !length_app, length_firstn, length_skipn.
  destruct (nth_error bs i) as [b |] eqn:E.
  - assert (i < List.length bs)%nat
      by (apply nth_error_Some; congruence).
    simpl. lia.
  - apply nth_error_None in E. simpl. lia.
Qed.

Lemma length_adjustScalarBytes (bs : list byte) :
  List.length (X25519.adjustScalarBytes bs) = List.length bs.
Proof. unfold X25519.adjustScalarBytes. now rewrite !length_set_nth. Qed.

(** Clamping a clamped scalar changes nothing. *)
Lemma adjustScalarBytes_twice (bs : list byte) :
  List.length bs = 32%nat ->
  X25519.adjustScalarBytes (X25519.adjustScalarBytes bs)
  = X25519.adjustScalarBytes bs.
Proof.
  intros H.
  do 32 (destruct bs as [| ? bs]; [discriminate |]).
  destruct bs; [| discriminate].
  cbn [X25519.adjustScalarBytes X25519.set_nth firstn skipn nth_error app].
  now rewrite clamp_first_twice, clamp_last_twice.
Qed.

Lemma getPublicKey_clamped (bs : list byte) :
  List.length bs = 32%nat ->
  X25519.getPublicKey (X25519.adjustScalarBytes bs) = X25519.getPublicKey bs.
Proof.
  intros H.
  unfold X25519.getPublicKey, X25519.scalarMult, X25519.decodeScalar.
  now rewrite length_adjustScalarBytes, (adjustScalarBytes_twice bs H).
Qed.

(** X7: the bits that the curve primitive clamps do not reach the public
    key: a 32-byte private key and its clamped form (first byte [& 248],
    last byte [& 127 | 64]) have the same outcome under
    [derivePublicKey], so distinct private keys share a public key. *)
Theorem derivePublicKey_clamped :
  forall (bs : list byte) (w : World),
    List.length bs = 32%nat ->
    derivePublicKey (Base64.toString (X25519.adjustScalarBytes bs)) w
    = derivePublicKey (Base64.toString bs) w.
Proof.
  intros bs w H. rewrite !derivePublicKey_node, !from_toString.
  now rewrite length_adjustScalarBytes, (getPublicKey_clamped bs H).
Qed.

(** The README's private key starts with the byte [0x9c]; with [0x98]
    instead it is another private key with the same public key. *)
Lemma derivePublicKey_clamped_witness :
  List.length readme_private_bytes = 32%nat
  /\ Base64.toString (X25519.adjustScalarBytes readme_private_bytes)
     = "mPse/4zbQGxOqAM14icWRru4I6g9s9xdhg9sCY2l3Uk="
  /\ derivePublicKey "mPse/4zbQGxOqAM14icWRru4I6g9s9xdhg9sCY2l3Uk=" []
     = (Ok readme_public, []).
Proof.
  assert (H : List.length readme_private_bytes = 32%nat) by reflexivity.
  assert (E : Base64.toString (X25519.adjustScalarBytes readme_private_bytes)
              = "mPse/4zbQGxOqAM14icWRru4I6g9s9xdhg9sCY2l3Uk=")
    by (vm_compute; reflexivity).
  pose proof (derivePublicKey_clamped readme_private_bytes [] H) as T.
  rewrite E in T.
  assert (R : Base64.toString readme_private_bytes = readme_private)
    by (vm_compute; reflexivity).
  rewrite R, derivePublicKey_readme in T.
  exact (conj H (conj E T)).
Defined.

(** On 32 bytes the curve primitive returns 32 bytes or refuses a result
    of zero. *)
Lemma getPublicKey_32 (k : list byte) :
  List.length k = 32%nat ->
  (exists pk, X25519.getPublicKey k = Ok pk /\ List.length pk = 32%nat)
  \/ X25519.getPublicKey k
     = Throw (Error "invalid private or public key received").
Proof.
  intros H. unfold X25519.getPublicKey, X25519.scalarMult.
  rewrite H. unfold X25519.encodeU at 1. rewrite length_numberToBytesLE.
  cbn [Nat.eqb negb].
  destruct (_ =? 0)%Z; [right; reflexivity | left].
  eexists. split; [reflexivity | apply length_numberToBytesLE].
Qed.

(** X8: when the input decodes to 32 bytes, [derivePublicKey] either
    returns a string of 44 characters, valid base64 for 32 bytes, or
    fails with the curve library's error; it does not fail with the
    key-length error. *)
Theorem derivePublicKey_on_32_bytes :
  forall (s : string) (w : World),
    List.length (Base64.from s) = 32%nat ->
    (exists pk : string,
        derivePublicKey s w = (Ok pk, w)
        /\ String.length pk = 44%nat
        /\ is_base64 pk = true
        /\ base64_decoded_length pk = 32%nat)
    \/ derivePublicKey s w
       = (Throw (Error "invalid private or public key received"), w).
Proof.
  intros s w H. rewrite derivePublicKey_node, H. cbn [Nat.eqb negb].
  destruct (getPublicKey_32 (Base64.from s) H) as [[pk [E L]] | E];
    rewrite E; [left | right; reflexivity].
  exists (Base64.toString pk). split; [reflexivity |].
  rewrite length_toString, L.
  rewrite <- from_valid_length by apply is_base64_toString.
  rewrite from_toString, is_base64_toString. repeat split. exact L.
Qed.

Lemma derivePublicKey_on_32_bytes_witness :
  List.length (Base64.from readme_private) = 32%nat
  /\ ((exists pk : string,
          derivePublicKey readme_private [] = (Ok pk, [])
          /\ String.length pk = 44%nat
          /\ is_base64 pk = true
          /\ base64_decoded_length pk = 32%nat)
      \/ derivePublicKey readme_private []
         = (Throw (Error "invalid private or public key received"), [])).
Proof.
  assert (H : List.length (Base64.from readme_private) = 32%nat)
    by (vm_compute; reflexivity).
  exact (conj H (derivePublicKey_on_32_bytes readme_private [] H)).
Defined.

(** X9: the codec that the module uses at every boundary round-trips
    buffers of every length: the encoding of [bs] is valid base64 of
    [4 * ceil (n / 3)] characters that stands for [n] bytes and decodes
    back to [bs]; so two buffers with one encoding are equal. *)
Theorem base64_round_trip :
  forall bs : list byte,
    Base64.from (Base64.toString bs) = bs
    /\ is_base64 (Base64.toString bs) = true
    /\ String.length (Base64.toString bs)
       = (4 * ((List.length bs + 2) / 3))%nat
    /\ base64_decoded_length (Base64.toString bs) = List.length bs
    /\ (forall bs' : list byte,
          Base64.toString bs' = Base64.toString bs -> bs' = bs).
Proof.
  intros bs. split; [apply from_toString |].
  split; [apply is_base64_toString |].
  split; [apply length_toString |]. split.
  - rewrite <- from_valid_length by apply is_base64_toString.
    now rewrite from_toString.
  - intros bs'. apply toString_injective.
Qed.

(** X10: two calls of [generateWireguardKeyPair] in a row take two
    successive draws of 32 bytes; when both return, the private keys are
    the encodings of the two draws, and they differ exactly when the
    draws differ (test 6 of the test suite, for the private keys). *)
Theorem two_key_pairs_fresh :
  forall (rnd1 rnd2 rest w' : list byte) (kp1 kp2 : WireGuardKeyPair),
    List.length rnd1 = 32%nat ->
    List.length rnd2 = 32%nat ->
    two_key_pairs (rnd1 ++ rnd2 ++ rest) = (Ok (kp1, kp2), w') ->
    w' = rest
    /\ privateKey kp1 = Base64.toString rnd1
    /\ privateKey kp2 = Base64.toString rnd2
    /\ (privateKey kp1 = privateKey kp2 <-> rnd1 = rnd2)
    /\ (rnd1 = rnd2 -> kp1 = kp2).
Proof.
  intros rnd1 rnd2 rest w' kp1 kp2 H1 H2. unfold two_key_pairs.
  unfold bind at 1. rewrite (generateWireguardKeyPair_node rnd1 _ H1).
  destruct (X25519.getPublicKey rnd1) as [pk1 |] eqn:E1; [| discriminate].
  unfold bind. rewrite (generateWireguardKeyPair_node rnd2 _ H2).
  destruct (X25519.getPublicKey rnd2) as [pk2 |] eqn:E2; [| discriminate].
  unfold ret. intros H. injection H as <- <- <-.
  cbn [privateKey publicKey]. repeat split.
  - apply toString_injective.
  - now intros ->.
  - intros ->. rewrite E1 in E2. now injection E2 as ->.
Qed.

(** The README's private key, clamped. *)
Lemma generateWireguardKeyPair_readme_clamped (rest : list byte) :
  generateWireguardKeyPair
    (X25519.adjustScalarBytes readme_private_bytes ++ rest)
  = (Ok {| privateKey := "mPse/4zbQGxOqAM14icWRru4I6g9s9xdhg9sCY2l3Uk=";
           publicKey := readme_public |}, rest).
Proof.
  rewrite (generateWireguardKeyPair_node
             (X25519.adjustScalarBytes readme_private_bytes) rest eq_refl).
  rewrite (getPublicKey_clamped readme_private_bytes eq_refl).
  rewrite readme_vector, readme_public_encoded.
  assert (E : Base64.toString (X25519.adjustScalarBytes readme_private_bytes)
              = "mPse/4zbQGxOqAM14icWRru4I6g9s9xdhg9sCY2l3Uk=")
    by (vm_compute; reflexivity).
  rewrite E. reflexivity.
Qed.

Lemma two_key_pairs_readme :
  two_key_pairs
    (readme_private_bytes
     ++ X25519.adjustScalarBytes readme_private_bytes ++ [])
  = (Ok ({| privateKey := readme_private; publicKey := readme_public |},
         {| privateKey := "mPse/4zbQGxOqAM14icWRru4I6g9s9xdhg9sCY2l3Uk=";
            publicKey := readme_public |}), []).
Proof.
  unfold two_key_pairs. unfold bind at 1.
  rewrite generateWireguardKeyPair_readme. unfold bind.
  rewrite generateWireguardKeyPair_readme_clamped. reflexivity.
Qed.

Lemma two_key_pairs_fresh_witness :
  List.length readme_private_bytes = 32%nat
  /\ List.length (X25519.adjustScalarBytes readme_private_bytes) = 32%nat
  /\ two_key_pairs
       (readme_private_bytes
        ++ X25519.adjustScalarBytes readme_private_bytes ++ [])
     = (Ok ({| privateKey := readme_private; publicKey := readme_public |},
            {| privateKey := "mPse/4zbQGxOqAM14icWRru4I6g9s9xdhg9sCY2l3Uk=";
               publicKey := readme_public |}), [])
  /\ (readme_private = "mPse/4zbQGxOqAM14icWRru4I6g9s9xdhg9sCY2l3Uk="
      <-> readme_private_bytes
          = X25519.adjustScalarBytes readme_private_bytes).
Proof.
  assert (H1 : List.length readme_private_bytes = 32%nat) by reflexivity.
  assert (H2 : List.length (X25519.adjustScalarBytes readme_private_bytes)
               = 32%nat) by reflexivity.
  pose proof two_key_pairs_readme as G.
  destruct (two_key_pairs_fresh readme_private_bytes
              (X25519.adjustScalarBytes readme_private_bytes) [] [] _ _
              H1 H2 G) as [_ [_ [_ [T _]]]].
  exact (conj H1 (conj H2 (conj G T))).
Defined.

(** X11: different draws need not give different public keys.  When the
    second of two successive draws is the clamped form of the first, the
    two pairs that are returned have the same public key, and their
    private keys differ as soon as clamping changes the draw (so the test
    suite's assertion on the public keys, test 6, can fail). *)
Theorem two_key_pairs_same_public :
  forall (rnd rest w' : list byte) (kp1 kp2 : WireGuardKeyPair),
    List.length rnd = 32%nat ->
    two_key_pairs (rnd ++ X25519.adjustScalarBytes rnd ++ rest)
    = (Ok (kp1, kp2), w') ->
    publicKey kp1 = publicKey kp2
    /\ (X25519.adjustScalarBytes rnd <> rnd ->
        privateKey kp1 <> privateKey kp2).
Proof.
  intros rnd rest w' kp1 kp2 H. unfold two_key_pairs.
  unfold bind at 1. rewrite (generateWireguardKeyPair_node rnd _ H).
  destruct (X25519.getPublicKey rnd) as [pk1 |] eqn:E1; [| discriminate].
  unfold bind.
  rewrite (generateWireguardKeyPair_node (X25519.adjustScalarBytes rnd) rest)
    by (now rewrite length_adjustScalarBytes).
  rewrite (getPublicKey_clamped rnd H), E1.
  unfold ret. intros G. injection G as <- <- <-.
  cbn [privateKey publicKey]. split; [reflexivity |].
  intros Hn Heq. apply Hn. symmetry. now apply toString_injective.
Qed.

Lemma two_key_pairs_same_public_witness :
  List.length readme_private_bytes = 32%nat
  /\ two_key_pairs
       (readme_private_bytes
        ++ X25519.adjustScalarBytes readme_private_bytes ++ [])
     = (Ok ({| privateKey := readme_private; publicKey := readme_public |},
            {| privateKey := "mPse/4zbQGxOqAM14icWRru4I6g9s9xdhg9sCY2l3Uk=";
               publicKey := readme_public |}), [])
  /\ X25519.adjustScalarBytes readme_private_bytes <> readme_private_bytes
  /\ readme_private <> "mPse/4zbQGxOqAM14icWRru4I6g9s9xdhg9sCY2l3Uk=".
Proof.
  assert (H : List.length readme_private_bytes = 32%nat) by reflexivity.
  pose proof two_key_pairs_readme as G.
  assert (N : X25519.adjustScalarBytes readme_private_bytes
              <> readme_private_bytes) by (vm_compute; discriminate).
  destruct (two_key_pairs_same_public readme_private_bytes [] [] _ _ H G)
    as [_ T].
  exact (conj H (conj G (conj N (T N)))).
Defined.
